(** * Hunter Pro CRM: the multi-provider AI service

    A shallow embedding of [app/services/ai_service.py] (the provider
    registry, the generation router with its fallback loop, and the two
    JSON-parsing derived operations), of the routes of
    [app/api/routes/ai.py] that serve them, and of the two methods of
    [app/services/crm_service.py] that call them, followed by the
    properties the specification states about them and by further
    properties read off the code.

    Conventions of the embedding:
    - a Python [str] is a Rocq [string];
    - a Python [dict] is an association list in insertion order, with the
      dictionary operations written out ([Dict.contains], [Dict.get],
      [Dict.set], [Dict.keys]);
    - a coroutine is a computation in the monad [M]: it threads the outside
      world (the backends behind the adapters) and a ghost log of adapter
      invocations, and it ends in a value or in a raised exception;
    - an exception is a value of [exn]; the one distinction the handlers
      make, between classes under [Exception] and the rest of
      [BaseException], is kept ([derives_Exception]);
    - a float is the decimal value of its literal, without rounding;
    - logging calls have no effect on results and are left out. *)

From Stdlib Require Import String Ascii List ZArith Lia Bool.
Import ListNotations.
Open Scope string_scope.

Set Warnings "-register-all".

(** ** Python values *)

(** A float is kept as the exact decimal value of its literal,
    [mantissa * 10 ^ exponent], or as one of the three special constants. *)
Inductive pyfloat : Type :=
  | Dec (mantissa exponent : Z)
  | NaN
  | PosInf
  | NegInf.

Inductive pyval : Type :=
  | PyNone
  | PyBool (b : bool)
  | PyInt (z : Z)
  | PyFloat (f : pyfloat)
  | PyStr (s : string)
  | PyList (items : list pyval)
  | PyDict (items : list (string * pyval)).

(** ** Exceptions *)

(** The exception classes that occur.  [BackendError] stands for any class
    below [Exception] raised inside an adapter (transport, authentication,
    rate limit, malformed body, timeout); [BaseSignal] for the classes
    that derive from [BaseException] only (cancellation, interrupt, exit). *)
Inductive exn : Type :=
  | ValueError (msg : string)
  | Exception (msg : string)
  | JSONDecodeError (msg : string)
  | KeyError (key : string)
  | HTTPException (status_code : Z) (detail : string)
  | BackendError (cls msg : string)
  | BaseSignal (cls msg : string).

(** [isinstance(e, Exception)] *)
Definition derives_Exception (e : exn) : bool :=
  match e with
  | BaseSignal _ _ => false
  | _ => true
  end.

(** [str(e)] *)
Definition str_exn (e : exn) : string :=
  match e with
  | ValueError m | Exception m | JSONDecodeError m
  | BackendError _ m | BaseSignal _ m => m
  | KeyError k => "'" ++ k ++ "'"
  | HTTPException _ d => d
  end.

(** ** Insertion-ordered dictionaries with string keys *)

Module Dict.

Definition t (V : Type) : Type := list (string * V).

Definition keys {V} (d : t V) : list string := map fst d.

Fixpoint contains {V} (k : string) (d : t V) : bool :=
  match d with
  | [] => false
  | (k', _) :: d' => if String.eqb k k' then true else contains k d'
  end.

Fixpoint get {V} (k : string) (d : t V) : option V :=
  match d with
  | [] => None
  | (k', v) :: d' => if String.eqb k k' then Some v else get k d'
  end.

(** [d[k] = v]: an existing key keeps its place, a new one goes last. *)
Fixpoint set {V} (k : string) (v : V) (d : t V) : t V :=
  match d with
  | [] => [(k, v)]
  | (k', v') :: d' =>
      if String.eqb k k' then (k, v) :: d' else (k', v') :: set k v d'
  end.

(** What every dictionary satisfies: no key occurs twice. *)
Definition wf {V} (d : t V) : Prop := NoDup (keys d).

End Dict.

(** ** The [str] methods the service uses *)

Module Str.

(** The double-quote character and a one-character string of it. *)
Definition dquote : ascii := "034"%char.
Definition dq : string := String dquote EmptyString.

(** [quoted s] is [s] between double quotes. *)
Definition quoted (s : string) : string := dq ++ s ++ dq.

Definition len (s : string) : Z := Z.of_nat (String.length s).

Fixpoint find_from (sub s : string) (i : Z) : Z :=
  if String.prefix sub s then i
  else
    match s with
    | EmptyString => -1
    | String _ s' => find_from sub s' (i + 1)
    end.

(** [s.find(sub)]: the lowest index where [sub] occurs, or -1. *)
Definition find (s sub : string) : Z := find_from sub s 0.

Fixpoint rfind_from (sub s : string) (i : Z) : Z :=
  match s with
  | EmptyString => if String.prefix sub s then i else -1
  | String _ s' =>
      let r := rfind_from sub s' (i + 1) in
      if r =? -1 then (if String.prefix sub s then i else -1) else r
  end%Z.

(** [s.rfind(sub)]: the highest index where [sub] occurs, or -1. *)
Definition rfind (s sub : string) : Z := rfind_from sub s 0.

(** How a slice bound is brought into [0 .. len]. *)
Definition clamp (n i : Z) : Z :=
  if (i <? 0)%Z then Z.max 0 (i + n) else Z.min i n.

(** [s[a:b]] *)
Definition slice (s : string) (a b : Z) : string :=
  let lo := clamp (len s) a in
  let hi := clamp (len s) b in
  String.substring (Z.to_nat lo) (Z.to_nat (hi - lo)) s.

(** [c] occurs nowhere in [s]. *)
Fixpoint lacks (c : ascii) (s : string) : bool :=
  match s with
  | EmptyString => true
  | String c' s' => if Ascii.eqb c' c then false else lacks c s'
  end.

End Str.

(** ** [json.loads]

    The decoder of Python's [json] package on a [str]: the grammar it
    accepts (including its [NaN], [Infinity] and [-Infinity]), strings
    decoded with their escapes, later duplicate keys overwriting earlier
    ones.  Text is UTF-8, so an escaped code point is stored as its bytes.
    Every way of failing is the one exception class, [JSONDecodeError];
    its message, which names the position, is only ever logged and is not
    modelled. *)

Module Json.

Import Str.

Inductive scan (A : Type) : Type :=
  | Scanned (a : A) (rest : string)
  | Malformed
  | Exhausted.

Arguments Scanned {A} a rest.
Arguments Malformed {A}.
Arguments Exhausted {A}.

Definition is_ws (c : ascii) : bool :=
  Ascii.eqb c " " || Ascii.eqb c "009" || Ascii.eqb c "010"
  || Ascii.eqb c "013".

Fixpoint skip_ws (s : string) : string :=
  match s with
  | String c s' => if is_ws c then skip_ws s' else s
  | EmptyString => s
  end.

(** [s] without its prefix [p], when it starts with [p]. *)
Fixpoint strip_prefix (p s : string) : option string :=
  match p, s with
  | EmptyString, _ => Some s
  | String a p', String b s' =>
      if Ascii.eqb a b then strip_prefix p' s' else None
  | String _ _, EmptyString => None
  end.

(** *** Numbers *)

Definition is_digit (c : ascii) : bool :=
  let n := N_of_ascii c in (48 <=? n)%N && (n <=? 57)%N.

Definition digit_value (c : ascii) : Z := Z.of_N (N_of_ascii c) - 48.

(** The longest run of digits in front of [s]: its value read after the
    digits in [acc], how many digits it has, and what follows it. *)
Fixpoint digits (acc : Z) (n : nat) (s : string) : Z * nat * string :=
  match s with
  | String c s' =>
      if is_digit c then digits (10 * acc + digit_value c) (S n) s'
      else (acc, n, s)
  | EmptyString => (acc, n, s)
  end.

(** The integer part, without its sign: a lone zero, or a run of digits
    that starts with a non-zero one. *)
Definition int_part (s : string) : option (Z * string) :=
  match s with
  | String c s' =>
      if Ascii.eqb c "0" then Some (0%Z, s')
      else if is_digit c then
        let '(v, _, rest) := digits 0 0 s in Some (v, rest)
      else None
  | EmptyString => None
  end.

(** The optional fraction (a dot and at least one digit) after an integer
    part of value [v]: the digits go on into the mantissa and are
    counted. *)
Definition frac_part (v : Z) (s : string) : option (Z * nat * string) :=
  match s with
  | String c s' =>
      if Ascii.eqb c "." then
        match digits v 0 s' with
        | (_, O, _) => None
        | (m, S k, rest) => Some (m, S k, rest)
        end
      else None
  | EmptyString => None
  end.

(** The optional exponent: [e] or [E], an optional sign, at least one
    digit. *)
Definition exp_part (s : string) : option (Z * string) :=
  match s with
  | String c s' =>
      if Ascii.eqb c "e" || Ascii.eqb c "E" then
        let '(neg, s'') :=
          match s' with
          | String d t =>
              if Ascii.eqb d "-" then (true, t)
              else if Ascii.eqb d "+" then (false, t)
              else (false, s')
          | EmptyString => (false, s')
          end in
        match digits 0 0 s'' with
        | (_, O, _) => None
        | (e, S _, rest) => Some (if neg then (- e)%Z else e, rest)
        end
      else None
  | EmptyString => None
  end.

(** Trailing zeros of the mantissa move into the exponent, so that one
    decimal value has one representation. *)
Fixpoint strip_zeros (n : nat) (m e : Z) : Z * Z :=
  match n with
  | O => (m, e)
  | S n' =>
      if (m mod 10 =? 0)%Z then strip_zeros n' (m / 10)%Z (e + 1)%Z
      else (m, e)
  end.

Definition decimal (m e : Z) : pyfloat :=
  if (m =? 0)%Z then Dec 0 0
  else let '(m', e') := strip_zeros (Z.to_nat (Z.log2 (Z.abs m))) m e in
       Dec m' e'.

(** A number in front of [s]: an [int] when it has neither fraction nor
    exponent, a [float] otherwise. *)
Definition scan_number (s : string) : option (pyval * string) :=
  let '(neg, s1) :=
    match s with
    | String c s' => if Ascii.eqb c "-" then (true, s') else (false, s)
    | EmptyString => (false, s)
    end in
  let sign (z : Z) : Z := if neg then (- z)%Z else z in
  match int_part s1 with
  | None => None
  | Some (v, s2) =>
      match frac_part v s2, exp_part s2 with
      | None, None => Some (PyInt (sign v), s2)
      | None, Some (e, rest) => Some (PyFloat (decimal (sign v) e), rest)
      | Some (m, k, s3), _ =>
          match exp_part s3 with
          | None =>
              Some (PyFloat (decimal (sign m) (- Z.of_nat k)), s3)
          | Some (e, rest) =>
              Some (PyFloat (decimal (sign m) (e - Z.of_nat k)), rest)
          end
      end
  end.

(** *** Strings *)

Definition hex_value (c : ascii) : option N :=
  let n := N_of_ascii c in
  if (48 <=? n)%N && (n <=? 57)%N then Some (n - 48)%N
  else if (65 <=? n)%N && (n <=? 70)%N then Some (n - 55)%N
  else if (97 <=? n)%N && (n <=? 102)%N then Some (n - 87)%N
  else None.

Definition hex4 (a b c d : ascii) : option N :=
  match hex_value a, hex_value b, hex_value c, hex_value d with
  | Some x, Some y, Some z, Some w =>
      Some (((x * 16 + y) * 16 + z) * 16 + w)%N
  | _, _, _, _ => None
  end.

Definition byte (n : N) : ascii := ascii_of_N (n mod 256).

(** [chr(cp)] in UTF-8 (a lone surrogate takes the three-byte form). *)
Definition chr (cp : N) : string :=
  (if cp <? 128 then String (byte cp) EmptyString
   else if cp <? 2048 then
     String (byte (192 + cp / 64))
       (String (byte (128 + cp mod 64)) EmptyString)
   else if cp <? 65536 then
     String (byte (224 + cp / 4096))
       (String (byte (128 + (cp / 64) mod 64))
          (String (byte (128 + cp mod 64)) EmptyString))
   else
     String (byte (240 + cp / 262144))
       (String (byte (128 + (cp / 4096) mod 64))
          (String (byte (128 + (cp / 64) mod 64))
             (String (byte (128 + cp mod 64)) EmptyString))))%N.

(** The one-letter escapes. *)
Definition backslash (c : ascii) : option ascii :=
  if Ascii.eqb c dquote then Some dquote
  else if Ascii.eqb c "\" then Some "\"%char
  else if Ascii.eqb c "/" then Some "/"%char
  else if Ascii.eqb c "b" then Some "008"%char
  else if Ascii.eqb c "f" then Some "012"%char
  else if Ascii.eqb c "n" then Some "010"%char
  else if Ascii.eqb c "r" then Some "013"%char
  else if Ascii.eqb c "t" then Some "009"%char
  else None.

Definition is_high_surrogate (u : N) : bool :=
  (55296 <=? u)%N && (u <=? 56319)%N.

Definition is_low_surrogate (u : N) : bool :=
  (56320 <=? u)%N && (u <=? 57343)%N.

Definition emit (prefix : string) (r : scan string) : scan string :=
  match r with
  | Scanned body rest => Scanned (prefix ++ body) rest
  | other => other
  end.

(** [scanstring] in strict mode, entered after the opening quote. *)
Fixpoint scanstring (s : string) : scan string :=
  match s with
  | EmptyString => Malformed
  | String c s1 =>
      if Ascii.eqb c dquote then Scanned EmptyString s1
      else if Ascii.eqb c "\" then
        match s1 with
        | EmptyString => Malformed
        | String e s2 =>
            if Ascii.eqb e "u" then
              match s2 with
              | String h1 (String h2 (String h3 (String h4 s3))) =>
                  match hex4 h1 h2 h3 h4 with
                  | None => Malformed
                  | Some uni =>
                      match s3 with
                      | String b (String u (String l1 (String l2
                          (String l3 (String l4 s4))))) =>
                          if is_high_surrogate uni && Ascii.eqb b "\"
                             && Ascii.eqb u "u"
                          then
                            match hex4 l1 l2 l3 l4 with
                            | None => Malformed
                            | Some uni2 =>
                                if is_low_surrogate uni2 then
                                  emit (chr (65536
                                             + (uni - 55296) * 1024
                                             + (uni2 - 56320))%N)
                                    (scanstring s4)
                                else emit (chr uni) (scanstring s3)
                            end
                          else emit (chr uni) (scanstring s3)
                      | _ => emit (chr uni) (scanstring s3)
                      end
                  end
              | _ => Malformed
              end
            else
              match backslash e with
              | Some ch => emit (String ch EmptyString) (scanstring s2)
              | None => Malformed
              end
        end
      else if (N_of_ascii c <? 32)%N then Malformed
      else emit (String c EmptyString) (scanstring s1)
  end.

(** *** Values *)

(** [dict(pairs)] *)
Definition dict_of (pairs : list (string * pyval)) : Dict.t pyval :=
  fold_left (fun d kv => Dict.set (fst kv) (snd kv) d) pairs [].

(** The literals tried when no string, container or number starts. *)
Definition scan_constant (s : string) : scan pyval :=
  match strip_prefix "NaN" s with
  | Some rest => Scanned (PyFloat NaN) rest
  | None =>
  match strip_prefix "Infinity" s with
  | Some rest => Scanned (PyFloat PosInf) rest
  | None =>
  match strip_prefix "-Infinity" s with
  | Some rest => Scanned (PyFloat NegInf) rest
  | None => Malformed
  end end end.

Definition scan_word (w : string) (v : pyval) (s : string) : scan pyval :=
  match strip_prefix w s with
  | Some rest => Scanned v rest
  | None =>
      match scan_number s with
      | Some (n, rest) => Scanned n rest
      | None => scan_constant s
      end
  end.

(** [scan_once], with the member loop of [JSONObject] and the element
    loop of [JSONArray].  [members] is entered after the opening quote of
    a key, [elements] at the start of a value. *)
Fixpoint scan_once (fuel : nat) (s : string) : scan pyval :=
  match fuel with
  | O => Exhausted
  | S fuel' =>
      match s with
      | EmptyString => Malformed
      | String c s' =>
          if Ascii.eqb c dquote then
            match scanstring s' with
            | Scanned str rest => Scanned (PyStr str) rest
            | Malformed => Malformed
            | Exhausted => Exhausted
            end
          else if Ascii.eqb c "{" then
            match skip_ws s' with
            | String d s1 =>
                if Ascii.eqb d "}" then Scanned (PyDict []) s1
                else if Ascii.eqb d dquote then
                  match members fuel' s1 [] with
                  | Scanned pairs rest => Scanned (PyDict (dict_of pairs)) rest
                  | Malformed => Malformed
                  | Exhausted => Exhausted
                  end
                else Malformed
            | EmptyString => Malformed
            end
          else if Ascii.eqb c "[" then
            match skip_ws s' with
            | String d s1 =>
                if Ascii.eqb d "]" then Scanned (PyList []) s1
                else
                  match elements fuel' (String d s1) [] with
                  | Scanned values rest => Scanned (PyList values) rest
                  | Malformed => Malformed
                  | Exhausted => Exhausted
                  end
            | EmptyString => Malformed
            end
          else if Ascii.eqb c "n" then scan_word "null" PyNone s
          else if Ascii.eqb c "t" then scan_word "true" (PyBool true) s
          else if Ascii.eqb c "f" then scan_word "false" (PyBool false) s
          else
            match scan_number s with
            | Some (n, rest) => Scanned n rest
            | None => scan_constant s
            end
      end
  end

with members (fuel : nat) (s : string) (pairs : list (string * pyval))
    : scan (list (string * pyval)) :=
  match fuel with
  | O => Exhausted
  | S fuel' =>
      match scanstring s with
      | Scanned key s1 =>
          match skip_ws s1 with
          | String c s2 =>
              if Ascii.eqb c ":" then
                match scan_once fuel' (skip_ws s2) with
                | Scanned value s3 =>
                    match skip_ws s3 with
                    | String d s4 =>
                        if Ascii.eqb d "}" then
                          Scanned (pairs ++ [(key, value)])%list s4
                        else if Ascii.eqb d "," then
                          match skip_ws s4 with
                          | String q s5 =>
                              if Ascii.eqb q dquote then
                                members fuel' s5 (pairs ++ [(key, value)])%list
                              else Malformed
                          | EmptyString => Malformed
                          end
                        else Malformed
                    | EmptyString => Malformed
                    end
                | Malformed => Malformed
                | Exhausted => Exhausted
                end
              else Malformed
          | EmptyString => Malformed
          end
      | Malformed => Malformed
      | Exhausted => Exhausted
      end
  end

with elements (fuel : nat) (s : string) (values : list pyval)
    : scan (list pyval) :=
  match fuel with
  | O => Exhausted
  | S fuel' =>
      match scan_once fuel' s with
      | Scanned value s1 =>
          match skip_ws s1 with
          | String d s2 =>
              if Ascii.eqb d "]" then Scanned (values ++ [value])%list s2
              else if Ascii.eqb d "," then
                elements fuel' (skip_ws s2) (values ++ [value])%list
              else Malformed
          | EmptyString => Malformed
          end
      | Malformed => Malformed
      | Exhausted => Exhausted
      end
  end.

(** Recursion depth that no text of this length can use up. *)
Definition depth (s : string) : nat := 2 * String.length s + 2.

(** [JSONDecoder.decode]: one value, blanks around it, nothing else. *)
Definition decode (s : string) : scan pyval :=
  match scan_once (depth s) (skip_ws s) with
  | Scanned v rest =>
      match skip_ws rest with
      | EmptyString => Scanned v EmptyString
      | String _ _ => Malformed
      end
  | other => other
  end.

(** [json.loads(s)] *)
Definition loads (s : string) : exn + pyval :=
  match decode s with
  | Scanned v _ => inr v
  | _ => inl (JSONDecodeError "malformed JSON")
  end.

End Json.

(** Keyword arguments, as the dictionary Python passes along. *)
Definition kwargs : Type := Dict.t pyval.

(** [a or b] on an optional string: [None] and the empty string are falsy. *)
Definition str_or (a : option string) (b : string) : string :=
  match a with
  | Some s => if String.eqb s EmptyString then b else s
  | None => b
  end.

Section Service.

(** The state of everything behind the adapters (remote APIs, the local
    Ollama daemon, the network). *)
Variable World : Type.

(** ** The coroutine monad *)

Record St : Type := mkSt {
  world : World;
  calls : list string   (* ghost: names of the adapters invoked so far *)
}.

Definition M (A : Type) : Type := St -> (exn + A) * St.

Definition ret {A} (a : A) : M A := fun st => (inr a, st).

Definition raise {A} (e : exn) : M A := fun st => (inl e, st).

Definition bind {A B} (c : M A) (k : A -> M B) : M B :=
  fun st =>
    match c st with
    | (inr a, st') => k a st'
    | (inl e, st') => (inl e, st')
    end.

(** [try: c  except <classes>: h]; the handler runs in the state the
    body left behind. *)
Definition try_except {A} (c : M A) (handles : exn -> bool)
    (h : exn -> M A) : M A :=
  fun st =>
    match c st with
    | (inr a, st') => (inr a, st')
    | (inl e, st') => if handles e then h e st' else (inl e, st')
    end.

Notation "x <- c ;; k" := (bind c (fun x => k))
  (at level 61, c at next level, right associativity).

(** ** Provider adapters *)

(** [class AIProvider]: the one capability the router uses.  The five
    concrete adapters log and re-raise whatever their backend call
    raises, so an adapter is its backend call. *)
Record AIProvider : Type := mkProvider {
  provider_generate : string -> kwargs -> World -> (exn + string) * World
}.

(** [await self.providers[name].generate(prompt, **kwargs)], once the
    adapter has been looked up. *)
Definition invoke (name : string) (p : AIProvider) (prompt : string)
    (kw : kwargs) : M string :=
  fun st =>
    let (r, w') := provider_generate p prompt kw (world st) in
    (r, mkSt w' (calls st ++ [name])%list).

(** [d[k]] as an expression. *)
Definition getitem {V} (d : Dict.t V) (k : string) : M V :=
  match Dict.get k d with
  | Some v => ret v
  | None => raise (KeyError k)
  end.

(** ** The service *)

Record AIService : Type := mkService {
  providers : Dict.t AIProvider;
  default_provider : string
}.

(** Lines 224-232 of [AIService.generate]: which adapter goes first. *)
Definition resolve_provider (self : AIService) (provider : option string)
    : exn + string :=
  let provider_name := str_or provider (default_provider self) in
  if Dict.contains provider_name (providers self) then inr provider_name
  else
    match Dict.keys (providers self) with
    | first :: _ => inr first
    | [] => inl (ValueError "No AI providers available")
    end.

(** Lines 241-249: the fallback loop over the registry's keys and the
    final [raise]. *)
Fixpoint fallback (self : AIService) (ks : list string)
    (provider_name prompt : string) (kw : kwargs) : M string :=
  match ks with
  | [] => raise (Exception "All AI providers failed")
  | fallback_provider :: ks' =>
      if String.eqb fallback_provider provider_name
      then fallback self ks' provider_name prompt kw
      else
        try_except
          (p <- getitem (providers self) fallback_provider ;;
           invoke fallback_provider p prompt kw)
          (fun _ => true)
          (fun _ => fallback self ks' provider_name prompt kw)
  end.

(** Lines 234-249: the first attempt and its handler. *)
Definition attempt (self : AIService) (provider_name prompt : string)
    (kw : kwargs) : M string :=
  try_except
    (p <- getitem (providers self) provider_name ;;
     invoke provider_name p prompt kw)
    derives_Exception
    (fun _ =>
       fallback self (Dict.keys (providers self)) provider_name prompt kw).

(** [AIService.generate] *)
Definition generate (self : AIService) (prompt : string)
    (provider : option string) (kw : kwargs) : M string :=
  match resolve_provider self provider with
  | inl e => raise e
  | inr provider_name => attempt self provider_name prompt kw
  end.

(** ** The [/api/ai/generate] route *)

Record GenerateRequest : Type := mkGenerateRequest {
  req_prompt : string;
  req_provider : option string;
  req_temperature : pyfloat;
  req_max_tokens : Z;
  req_system_prompt : option string
}.

Record GenerateResponse : Type := mkGenerateResponse {
  response : string;
  provider : string;
  model : string
}.

Definition opt_str (o : option string) : pyval :=
  match o with
  | Some s => PyStr s
  | None => PyNone
  end.

Definition request_kwargs (request : GenerateRequest) : kwargs :=
  [ ("temperature", PyFloat (req_temperature request));
    ("max_tokens", PyInt (req_max_tokens request));
    ("system_prompt", opt_str (req_system_prompt request)) ].

(** [generate_text] *)
Definition generate_text (request : GenerateRequest) (ai : AIService)
    : M GenerateResponse :=
  try_except
    (response <- generate ai (req_prompt request) (req_provider request)
                   (request_kwargs request) ;;
     ret (mkGenerateResponse response
            (str_or (req_provider request) (default_provider ai))
            "auto"))
    derives_Exception
    (fun e =>
       raise (HTTPException 500 ("AI generation error: " ++ str_exn e))).

(** ** The derived operations *)

Definition lift {A} (r : exn + A) : M A :=
  match r with
  | inl e => raise e
  | inr a => ret a
  end.

Definition nl : string := String "010" EmptyString.

Definition sentiment_prompt (text : string) : string :=
  "Analyze the sentiment of the following text and respond with JSON only:"
  ++ nl ++ nl ++ "Text: " ++ text ++ nl ++ nl
  ++ "Respond with this exact JSON structure:" ++ nl
  ++ "{" ++ nl
  ++ "    " ++ Str.quoted "sentiment" ++ ": "
  ++ Str.quoted "positive/negative/neutral" ++ "," ++ nl
  ++ "    " ++ Str.quoted "confidence" ++ ": 0.0-1.0," ++ nl
  ++ "    " ++ Str.quoted "emotions" ++ ": [" ++ Str.quoted "emotion1"
  ++ ", " ++ Str.quoted "emotion2" ++ "]," ++ nl
  ++ "    " ++ Str.quoted "tone" ++ ": "
  ++ Str.quoted "description of tone" ++ nl
  ++ "}".

Definition intent_prompt (text : string) : string :=
  "Extract the intent from the following text and respond with JSON only:"
  ++ nl ++ nl ++ "Text: " ++ text ++ nl ++ nl
  ++ "Respond with this exact JSON structure:" ++ nl
  ++ "{" ++ nl
  ++ "    " ++ Str.quoted "primary_intent" ++ ": "
  ++ Str.quoted "intent_name" ++ "," ++ nl
  ++ "    " ++ Str.quoted "confidence" ++ ": 0.0-1.0," ++ nl
  ++ "    " ++ Str.quoted "entities" ++ ": {"
  ++ Str.quoted "entity_type" ++ ": " ++ Str.quoted "entity_value"
  ++ "}," ++ nl
  ++ "    " ++ Str.quoted "action_required" ++ ": "
  ++ Str.quoted "suggested action" ++ nl
  ++ "}".

(** The record returned when the response holds no braces to parse. *)
Definition sentiment_unclear : pyval :=
  PyDict [ ("sentiment", PyStr "neutral");
           ("confidence", PyFloat (Dec 5 (-1)));
           ("emotions", PyList []);
           ("tone", PyStr "unclear") ].

(** The record returned from the exception handler. *)
Definition sentiment_error : pyval :=
  PyDict [ ("sentiment", PyStr "neutral");
           ("confidence", PyFloat (Dec 0 0));
           ("emotions", PyList []);
           ("tone", PyStr "error") ].

Definition intent_clarify : pyval :=
  PyDict [ ("primary_intent", PyStr "unknown");
           ("confidence", PyFloat (Dec 0 0));
           ("entities", PyDict []);
           ("action_required", PyStr "clarify") ].

Definition intent_error : pyval :=
  PyDict [ ("primary_intent", PyStr "unknown");
           ("confidence", PyFloat (Dec 0 0));
           ("entities", PyDict []);
           ("action_required", PyStr "error") ].

(** The body both operations share after the router has answered:
    the span from the first opening brace to the last closing one is
    parsed, and [otherwise] is returned when there is no such span. *)
Definition extract_json (response : string) (otherwise : pyval)
    : M pyval :=
  let json_start := Str.find response "{" in
  let json_end := (Str.rfind response "}" + 1)%Z in
  if negb (json_start =? -1)%Z && (json_end >? json_start)%Z
  then lift (Json.loads (Str.slice response json_start json_end))
  else ret otherwise.

Definition low_temperature : kwargs :=
  [ ("temperature", PyFloat (Dec 3 (-1))) ].

(** [AIService.analyze_sentiment] *)
Definition analyze_sentiment (self : AIService) (text : string)
    : M pyval :=
  try_except
    (response <- generate self (sentiment_prompt text) None
                   low_temperature ;;
     extract_json response sentiment_unclear)
    derives_Exception
    (fun _ => ret sentiment_error).

(** [AIService.extract_intent] *)
Definition extract_intent (self : AIService) (text : string)
    : M pyval :=
  try_except
    (response <- generate self (intent_prompt text) None
                   low_temperature ;;
     extract_json response intent_clarify)
    derives_Exception
    (fun _ => ret intent_error).

(** ** Construction of the service *)

(** Where an adapter sends its requests and under which settings. *)
Inductive Endpoint : Type :=
  | OpenAI (api_key model : string)
  | Claude (api_key model : string)
  | Gemini (api_key model : string)
  | Groq (api_key model : string)
  | Ollama (base_url model : string).

(** The outbound call of an adapter together with the extraction of the
    text from the reply. *)
Variable transport :
  Endpoint -> string -> kwargs -> World -> (exn + string) * World.

(** What building the client object of the two SDK-backed adapters
    ([AsyncOpenAI], [AsyncAnthropic]) raises, if anything. *)
Variable sdk_client : Endpoint -> option exn.

(** The process environment, [os.getenv]. *)
Definition environ : Type := string -> option string.

Definition getenv (env : environ) (name default : string) : string :=
  match env name with
  | Some v => v
  | None => default
  end.

(** The value of a variable that is set and not empty. *)
Definition getenv_truthy (env : environ) (name : string) : option string :=
  match env name with
  | Some v => if String.eqb v EmptyString then None else Some v
  | None => None
  end.

Definition with_client (e : Endpoint) : exn + AIProvider :=
  match sdk_client e with
  | Some err => inl err
  | None => inr (mkProvider (transport e))
  end.

Definition OpenAIProvider (env : environ) (api_key : string)
    : exn + AIProvider :=
  with_client (OpenAI api_key (getenv env "OPENAI_MODEL" "gpt-4-turbo")).

Definition ClaudeProvider (env : environ) (api_key : string)
    : exn + AIProvider :=
  with_client
    (Claude api_key
       (getenv env "ANTHROPIC_MODEL" "claude-3-5-sonnet-20240620")).

Definition GeminiProvider (env : environ) (api_key : string)
    : exn + AIProvider :=
  inr (mkProvider
         (transport
            (Gemini api_key (getenv env "GOOGLE_MODEL" "gemini-1.5-flash")))).

Definition GroqProvider (env : environ) (api_key : string)
    : exn + AIProvider :=
  inr (mkProvider
         (transport
            (Groq api_key (getenv env "GROQ_MODEL" "llama3-70b-8192")))).

Definition OllamaProvider (env : environ) : exn + AIProvider :=
  inr (mkProvider
         (transport
            (Ollama (getenv env "OLLAMA_BASE_URL" "http://localhost:11434")
                    (getenv env "OLLAMA_MODEL" "llama3:8b")))).

(** [if os.getenv(var): self.providers[name] = ctor(os.getenv(var))] *)
Definition register_if_configured (env : environ) (var name : string)
    (ctor : environ -> string -> exn + AIProvider)
    (ps : Dict.t AIProvider) : exn + Dict.t AIProvider :=
  match getenv_truthy env var with
  | Some key =>
      match ctor env key with
      | inr p => inr (Dict.set name p ps)
      | inl e => inl e
      end
  | None => inr ps
  end.

(** [AIService._initialize_providers], from the empty dictionary. *)
Definition _initialize_providers (env : environ)
    : exn + Dict.t AIProvider :=
  match register_if_configured env "OPENAI_API_KEY" "openai"
          OpenAIProvider [] with
  | inl e => inl e
  | inr ps1 =>
  match register_if_configured env "ANTHROPIC_API_KEY" "claude"
          ClaudeProvider ps1 with
  | inl e => inl e
  | inr ps2 =>
  match register_if_configured env "GOOGLE_API_KEY" "gemini"
          GeminiProvider ps2 with
  | inl e => inl e
  | inr ps3 =>
  match register_if_configured env "GROQ_API_KEY" "groq"
          GroqProvider ps3 with
  | inl e => inl e
  | inr ps4 =>
      match OllamaProvider env with
      | inr p => inr (Dict.set "ollama" p ps4)
      | inl e => if derives_Exception e then inr ps4 else inl e
      end
  end end end end.

(** [AIService.__init__] *)
Definition AIService_init (env : environ) : exn + AIService :=
  match _initialize_providers env with
  | inl e => inl e
  | inr ps =>
      inr (mkService ps (getenv env "DEFAULT_AI_PROVIDER" "openai"))
  end.

End Service.

Arguments mkSt {World}.
Arguments world {World}.
Arguments calls {World}.
Arguments ret {World A}.
Arguments raise {World A}.
Arguments bind {World A B}.
Arguments try_except {World A}.
Arguments mkProvider {World}.
Arguments provider_generate {World}.
Arguments invoke {World}.
Arguments getitem {World V}.
Arguments mkService {World}.
Arguments providers {World}.
Arguments default_provider {World}.
Arguments resolve_provider {World}.
Arguments fallback {World}.
Arguments attempt {World}.
Arguments generate {World}.
Arguments generate_text {World}.
Arguments lift {World A}.
Arguments extract_json {World}.
Arguments analyze_sentiment {World}.
Arguments extract_intent {World}.
Arguments _initialize_providers {World}.
Arguments AIService_init {World}.

(** ** The rest of the service and of its routes *)

Section Surface.

Variable World : Type.

Notation "x <- c ;; k" := (bind c (fun x => k))
  (at level 61, c at next level, right associativity).

(** [AIService.get_available_providers] *)
Definition get_available_providers (self : AIService World) : list string :=
  Dict.keys (providers self).

(** [AIService.get_provider_info] *)
Definition get_provider_info (self : AIService World) : pyval :=
  PyDict [ ("available_providers",
            PyList (map PyStr (Dict.keys (providers self))));
           ("default_provider", PyStr (default_provider self));
           ("total_providers",
            PyInt (Z.of_nat (List.length (providers self)))) ].

End Surface.

Arguments get_available_providers {World}.
Arguments get_provider_info {World}.

(** The endpoints of [app/api/routes/ai.py] next to [generate_text]; each
    takes the field of its request body that it reads. *)
Module Routes.

Section Endpoints.

Variable World : Type.

Notation "x <- c ;; k" := (bind c (fun x => k))
  (at level 61, c at next level, right associativity).

(** [POST /api/ai/sentiment] *)
Definition analyze_sentiment (request_text : string) (ai : AIService World)
    : M World pyval :=
  try_except
    (result <- analyze_sentiment ai request_text ;; ret result)
    derives_Exception
    (fun e =>
       raise (HTTPException 500 ("Sentiment analysis error: " ++ str_exn e))).

(** [POST /api/ai/intent] *)
Definition extract_intent (request_text : string) (ai : AIService World)
    : M World pyval :=
  try_except
    (result <- extract_intent ai request_text ;; ret result)
    derives_Exception
    (fun e =>
       raise (HTTPException 500 ("Intent extraction error: " ++ str_exn e))).

(** [GET /api/ai/providers] *)
Definition list_providers (ai : AIService World) : M World pyval :=
  ret (get_provider_info ai).

Definition test_prompt : string := "Say 'OK' if you can read this.".

(** [GET /api/ai/health] *)
Definition health_check (ai : AIService World) : M World pyval :=
  try_except
    (let providers := get_available_providers ai in
     default_status <-
       try_except
         (response <- generate ai test_prompt None [("max_tokens", PyInt 10)] ;;
          ret "healthy")
         (fun _ => true)
         (fun _ => ret "degraded") ;;
     ret (PyDict
            [ ("status",
               PyStr match providers with
                     | [] => "no_providers"
                     | _ :: _ => "healthy"
                     end);
              ("available_providers", PyList (map PyStr providers));
              ("default_provider", PyStr (default_provider ai));
              ("default_provider_status", PyStr default_status);
              ("total_providers", PyInt (Z.of_nat (List.length providers))) ]))
    derives_Exception
    (fun e =>
       ret (PyDict [ ("status", PyStr "unhealthy");
                     ("error", PyStr (str_exn e)) ])).

End Endpoints.

Arguments analyze_sentiment {World}.
Arguments extract_intent {World}.
Arguments list_providers {World}.
Arguments health_check {World}.

End Routes.

(** ** The callers in [app/services/crm_service.py]

    The two AI-backed methods of [CRMService] that go through
    [analyze_sentiment] and [generate].  The database is outside: each
    query is a computation given from outside, and so is the text of the
    prompt that is built from the columns of a customer. *)

(** [v[k] = x] with a string key: only a dictionary takes it, anything
    else raises [TypeError]. *)
Definition setitem_str (v : pyval) (k : string) (x : pyval) : exn + pyval :=
  let unsupported (cls : string) :=
    inl (BackendError "TypeError"
           ("'" ++ cls ++ "' object does not support item assignment")) in
  match v with
  | PyDict d => inr (PyDict (Dict.set k x d))
  | PyList _ =>
      inl (BackendError "TypeError"
             "list indices must be integers or slices, not str")
  | PyNone => unsupported "NoneType"
  | PyBool _ => unsupported "bool"
  | PyInt _ => unsupported "int"
  | PyFloat _ => unsupported "float"
  | PyStr _ => unsupported "str"
  end.

Module CRM.

Section Insights.

Variable World : Type.

Notation "x <- c ;; k" := (bind c (fun x => k))
  (at level 61, c at next level, right associativity).

(** A row of the messages table, as far as it is read here. *)
Record Message : Type := mkMessage {
  content : option string
}.

(** A row of the customers table. *)
Variable Customer : Type.

Record CRMService : Type := mkCRM {
  ai_service : AIService World
}.

(** The query of [get_customer] for an id, with its messages loaded. *)
Variable customer_query : Z -> M World (option Customer).

(** The incoming messages of a customer over the last [recent_days] days,
    newest first, at most fifty. *)
Variable recent_incoming : Z -> Z -> M World (list Message).

(** The prompt of [suggest_next_actions] for a customer. *)
Variable next_actions_prompt : Customer -> string.

(** [CRMService.get_customer] *)
Definition get_customer (self : CRMService) (customer_id : Z)
    : M World (option Customer) :=
  try_except (customer_query customer_id) derives_Exception
    (fun _ => ret None).

(** [[msg.content for msg in messages if msg.content]] *)
Fixpoint contents (messages : list Message) : list string :=
  match messages with
  | [] => []
  | msg :: rest =>
      match content msg with
      | Some c =>
          if String.eqb c EmptyString then contents rest
          else c :: contents rest
      | None => contents rest
      end
  end.

Definition no_recent_messages : pyval :=
  PyDict [ ("sentiment", PyStr "neutral");
           ("confidence", PyFloat (Dec 0 0));
           ("message_count", PyInt 0);
           ("analysis", PyStr "No recent messages") ].

Definition sentiment_failed (e : exn) : pyval :=
  PyDict [ ("sentiment", PyStr "error");
           ("confidence", PyFloat (Dec 0 0));
           ("message_count", PyInt 0);
           ("error", PyStr (str_exn e)) ].

(** [CRMService.analyze_customer_sentiment] *)
Definition analyze_customer_sentiment (self : CRMService)
    (customer_id recent_days : Z) : M World pyval :=
  try_except
    (messages <- recent_incoming customer_id recent_days ;;
     match messages with
     | [] => ret no_recent_messages
     | _ :: _ =>
         let combined_text := String.concat nl (contents messages) in
         sentiment <- analyze_sentiment (ai_service self)
                        (Str.slice combined_text 0 2000) ;;
         sentiment <- lift (setitem_str sentiment "message_count"
                              (PyInt (Z.of_nat (List.length messages)))) ;;
         sentiment <- lift (setitem_str sentiment "period_days"
                              (PyInt recent_days)) ;;
         ret sentiment
     end)
    derives_Exception
    (fun e => ret (sentiment_failed e)).

(** [CRMService.suggest_next_actions] *)
Definition suggest_next_actions (self : CRMService) (customer_id : Z)
    : M World pyval :=
  try_except
    (customer <- get_customer self customer_id ;;
     match customer with
     | None => ret (PyList [])
     | Some c =>
         response <- generate (ai_service self) (next_actions_prompt c) None
                       [("temperature", PyFloat (Dec 7 (-1)))] ;;
         let json_start := Str.find response "[" in
         let json_end := (Str.rfind response "]" + 1)%Z in
         if negb (json_start =? -1)%Z && (json_end >? json_start)%Z
         then lift (Json.loads (Str.slice response json_start json_end))
         else ret (PyList [])
     end)
    derives_Exception
    (fun _ => ret (PyList [])).

End Insights.

Arguments mkCRM {World}.
Arguments ai_service {World}.
Arguments get_customer {World Customer}.
Arguments analyze_customer_sentiment {World}.
Arguments suggest_next_actions {World Customer}.

End CRM.

(** The names of the backends in the order in which they are probed, each
    with the variable that holds its credential. *)
Definition credentialed : list (string * string) :=
  [ ("OPENAI_API_KEY", "openai"); ("ANTHROPIC_API_KEY", "claude");
    ("GOOGLE_API_KEY", "gemini"); ("GROQ_API_KEY", "groq") ].

(** The backends whose credential is set and not empty. *)
Definition configured (env : environ) : list string :=
  map snd
    (filter (fun vn => match getenv_truthy env (fst vn) with
                       | Some _ => true
                       | None => false
                       end)
       credentialed).

(** [d.get(k)] on a value that is a dictionary. *)
Definition field (v : pyval) (k : string) : option pyval :=
  match v with
  | PyDict d => Dict.get k d
  | _ => None
  end.

(** ** Vocabulary of the properties *)

(** The keys the fallback loop does not skip. *)
Definition others (name : string) (ks : list string) : list string :=
  filter (fun k => negb (String.eqb k name)) ks.

(** An adapter that fails whenever it is called, with an error that
    [except Exception] handles. *)
Definition always_fails {World} (p : AIProvider World) : Prop :=
  forall prompt kw w,
    exists e w', provider_generate p prompt kw w = (inl e, w')
                 /\ derives_Exception e = true.

(** An adapter that fails whenever it is called, with any error at all. *)
Definition never_answers {World} (p : AIProvider World) : Prop :=
  forall prompt kw w,
    exists e w', provider_generate p prompt kw w = (inl e, w').

(** No opening brace of [s] has a closing brace anywhere after it. *)
Fixpoint no_brace_pair (s : string) : bool :=
  match s with
  | EmptyString => true
  | String c s' =>
      if Ascii.eqb c "{" then Str.lacks "}" s' else no_brace_pair s'
  end.

(** A scan of [s] that has come to an answer and has not read past the
    end of [s]. *)
Definition settled {A} (s : string) (r : Json.scan A) : Prop :=
  r <> Json.Exhausted
  /\ forall a rest,
       r = Json.Scanned a rest -> (String.length rest <= String.length s)%nat.

(** The JSON text of the sentiment example and the record it denotes. *)
Definition upbeat_json : string :=
  "{" ++ Str.quoted "sentiment" ++ ":" ++ Str.quoted "positive" ++ ","
  ++ Str.quoted "confidence" ++ ":0.9,"
  ++ Str.quoted "emotions" ++ ":[" ++ Str.quoted "joy" ++ "],"
  ++ Str.quoted "tone" ++ ":" ++ Str.quoted "upbeat" ++ "}".

Definition upbeat_record : pyval :=
  PyDict [ ("sentiment", PyStr "positive");
           ("confidence", PyFloat (Dec 9 (-1)));
           ("emotions", PyList [PyStr "joy"]);
           ("tone", PyStr "upbeat") ].

(** ** Test doubles

    Adapters with a fixed behaviour, over a world that counts the requests
    sent out. *)

Module Doubles.

Definition failing (e : exn) : AIProvider nat :=
  mkProvider (fun _ _ w => (inl e, S w)).

Definition answering (text : string) : AIProvider nat :=
  mkProvider (fun _ _ w => (inr text, S w)).

Definition timeout : exn := BackendError "ReadTimeout" "timed out".

Definition idle : St nat := mkSt 0 [].

(** Registry [{A (fails), B (succeeds)}], default [A]. *)
Definition a_fails_b_answers : AIService nat :=
  mkService [ ("A", failing timeout); ("B", answering "hello") ] "A".

(** Registries in which every adapter times out. *)
Definition one_down : AIService nat :=
  mkService [ ("A", failing timeout) ] "A".

Definition two_down : AIService nat :=
  mkService [ ("A", failing timeout); ("B", failing timeout) ] "A".

Definition three_down : AIService nat :=
  mkService [ ("A", failing timeout); ("B", failing timeout);
              ("C", failing timeout) ] "B".

Definition nothing_configured : AIService nat := mkService [] "openai".

(** The default names a backend that was not configured. *)
Definition default_missing : AIService nat :=
  mkService [ ("groq", answering "hi"); ("ollama", failing timeout) ]
    "openai".

Definition plain_request : GenerateRequest :=
  mkGenerateRequest "Say OK" None (Dec 7 (-1)) 1000 None.

(** A model that answers in prose only. *)
Definition prose_only : AIService nat :=
  mkService [ ("ollama", answering "The text sounds rather positive.") ]
    "ollama".

(** A model that wraps the JSON in remarks of its own. *)
Definition wrapped_reply : string :=
  "Here is the analysis: " ++ upbeat_json ++ " Anything else?".

Definition wrapping : AIService nat :=
  mkService [ ("ollama", answering wrapped_reply) ] "ollama".

(** A model that mentions braces again after the JSON. *)
Definition chatty_reply : string :=
  "Result: " ++ upbeat_json ++ " (format: {json})".

Definition chatty : AIService nat :=
  mkService [ ("ollama", answering chatty_reply) ] "ollama".

(** A machine with no credentials set, whose backends cannot be reached. *)
Definition bare_env : environ := fun _ => None.

Definition unreachable
    : Endpoint -> string -> kwargs -> nat -> (exn + string) * nat :=
  fun _ _ _ w => (inl timeout, S w).

Definition sdk_ok : Endpoint -> option exn := fun _ => None.

(** The service built on that machine. *)
Definition bare_service : AIService nat :=
  mkService
    [ ("ollama",
       mkProvider (unreachable (Ollama "http://localhost:11434" "llama3:8b")))
    ] "openai".

(** A cancellation, which is no [Exception]. *)
Definition cancelled : exn := BaseSignal "CancelledError" "".

(** The call is cancelled while the first adapter runs. *)
Definition interrupted : AIService nat :=
  mkService [ ("A", failing cancelled); ("B", answering "hello") ] "A".

(** The first adapter times out and the call is cancelled while the
    second runs. *)
Definition mixed_down : AIService nat :=
  mkService [ ("A", failing timeout); ("B", failing cancelled);
              ("C", failing timeout) ] "A".

(** What stands between the braces of the example object. *)
Definition upbeat_inner : string :=
  String.substring 1 (String.length upbeat_json - 2) upbeat_json.

(** A machine with an OpenAI credential whose client cannot be built. *)
Definition keyed_env : environ :=
  fun name => if String.eqb name "OPENAI_API_KEY" then Some "sk-test" else None.

Definition bad_key : exn := BackendError "OpenAIError" "invalid api key".

Definition sdk_broken : Endpoint -> option exn := fun _ => Some bad_key.

(** A database with one recent message per customer, and two customer
    tables: an empty one and one that knows everybody as Ada. *)
Definition one_message : Z -> Z -> M nat (list CRM.Message) :=
  fun _ _ st => (inr [CRM.mkMessage (Some "Great service")], st).

Definition nobody : Z -> M nat (option string) :=
  fun _ st => (inr None, st).

Definition somebody : Z -> M nat (option string) :=
  fun _ st => (inr (Some "Ada"), st).

Definition ask_about (customer : string) : string :=
  "Suggest 3 next actions for " ++ customer.

End Doubles.

(** * The decoder terminates *)

Section Decoder.

Import Json.

Local Open Scope nat_scope.

Lemma skip_ws_length s : String.length (skip_ws s) <= String.length s.
Proof.
  induction s as [|c s IH]; simpl; [lia|].
  destruct (is_ws c); simpl; lia.
Qed.

Lemma emit_scanned p r b rest :
  emit p r = Scanned b rest -> exists b', r = Scanned b' rest.
Proof. destruct r; simpl; intros [= <- <-] || intros [=]; eauto. Qed.

Lemma emit_exhausted p r : emit p r = Exhausted -> r = Exhausted.
Proof. destruct r; simpl; congruence. Qed.

Ltac break_match :=
  match goal with
  | |- context [match ?x with _ => _ end] =>
      lazymatch x with
      | scanstring _ => fail
      | _ => destruct x eqn:?
      end
  | |- context [if ?x then _ else _] => destruct x eqn:?
  end.

Lemma scanstring_total n :
  forall s, String.length s < n ->
    scanstring s <> Exhausted
    /\ forall b rest, scanstring s = Scanned b rest ->
         String.length rest < String.length s.
Proof.
  induction n as [|n IH]; intros s Hlen; [lia|].
  assert (Hemit : forall p t, String.length t < String.length s ->
            emit p (scanstring t) <> Exhausted
            /\ forall b rest, emit p (scanstring t) = Scanned b rest ->
                 String.length rest < String.length s).
  { intros p t Ht. destruct (IH t ltac:(lia)) as [Hne Hsc]. split.
    - intros H. apply emit_exhausted in H. contradiction.
    - intros b rest H. apply emit_scanned in H as [b' H].
      specialize (Hsc _ _ H). lia. }
  destruct s as [|c s1]; [split; simpl; congruence|].
  cbn [scanstring].
  repeat break_match; subst;
    try (split; [discriminate | intros ? ? [=]; subst; simpl; lia]);
    try (apply Hemit; simpl; lia).
Qed.

Lemma digits_length s : forall acc n,
  String.length (snd (digits acc n s)) <= String.length s.
Proof.
  induction s as [|c s IH]; intros acc n; cbn [digits]; [simpl; lia|].
  destruct (is_digit c); [|simpl; lia].
  etransitivity; [apply IH|simpl; lia].
Qed.

Lemma int_part_length s v rest :
  int_part s = Some (v, rest) -> String.length rest <= String.length s.
Proof.
  unfold int_part. destruct s as [|c s']; [discriminate|].
  destruct (Ascii.eqb c "0"); [intros [= <- <-]; simpl; lia|].
  destruct (is_digit c); [|discriminate].
  pose proof (digits_length (String c s') 0 0) as H.
  destruct (digits 0 0 (String c s')) as [[v' k] r].
  intros [= <- <-]. exact H.
Qed.

Lemma frac_part_length v s m k rest :
  frac_part v s = Some (m, k, rest) -> String.length rest <= String.length s.
Proof.
  unfold frac_part. destruct s as [|c s']; [discriminate|].
  destruct (Ascii.eqb c "."); [|discriminate].
  pose proof (digits_length s' v 0) as H.
  destruct (digits v 0 s') as [[m' k'] r]. destruct k'; [discriminate|].
  intros [= <- <- <-]. simpl in *. lia.
Qed.

Lemma exp_part_length s e rest :
  exp_part s = Some (e, rest) -> String.length rest <= String.length s.
Proof.
  unfold exp_part. destruct s as [|c s']; [discriminate|].
  destruct (Ascii.eqb c "e" || Ascii.eqb c "E"); [|discriminate].
  set (p := match s' with
            | String d t =>
                if Ascii.eqb d "-" then (true, t)
                else if Ascii.eqb d "+" then (false, t)
                else (false, s')
            | EmptyString => (false, s')
            end).
  assert (Hp : String.length (snd p) <= String.length s').
  { unfold p. destruct s' as [|d t]; simpl; [lia|].
    destruct (Ascii.eqb d "-"); [simpl; lia|].
    destruct (Ascii.eqb d "+"); simpl; lia. }
  destruct p as [neg s'']. simpl in Hp.
  pose proof (digits_length s'' 0 0) as H.
  destruct (digits 0 0 s'') as [[e' k] r]. destruct k; [discriminate|].
  intros [= <- <-]. simpl in *. lia.
Qed.

Lemma scan_number_length s v rest :
  scan_number s = Some (v, rest) -> String.length rest <= String.length s.
Proof.
  unfold scan_number.
  set (start := match s with
                | String c s' =>
                    if Ascii.eqb c "-" then (true, s') else (false, s)
                | EmptyString => (false, s)
                end).
  assert (Hstart : String.length (snd start) <= String.length s).
  { unfold start. destruct s as [|c s']; simpl; [lia|].
    destruct (Ascii.eqb c "-"); simpl; lia. }
  destruct start as [neg s1]. simpl in Hstart.
  destruct (int_part s1) as [[v1 s2]|] eqn:Hint; [|discriminate].
  apply int_part_length in Hint.
  destruct (frac_part v1 s2) as [[[m k] s3]|] eqn:Hfrac.
  - apply frac_part_length in Hfrac.
    destruct (exp_part s3) as [[e r]|] eqn:Hexp.
    + apply exp_part_length in Hexp. intros [= <- <-]. lia.
    + intros [= <- <-]. lia.
  - destruct (exp_part s2) as [[e r]|] eqn:Hexp.
    + apply exp_part_length in Hexp. intros [= <- <-]. lia.
    + intros [= <- <-]. lia.
Qed.

Lemma strip_prefix_length p : forall s rest,
  strip_prefix p s = Some rest -> String.length rest <= String.length s.
Proof.
  induction p as [|a p IH]; intros s rest; simpl.
  - destruct s; intros [= <-]; lia.
  - destruct s as [|b s]; [discriminate|].
    destruct (Ascii.eqb a b); [|discriminate].
    intros H. apply IH in H. simpl. lia.
Qed.

Lemma scan_constant_settled s : settled s (scan_constant s).
Proof.
  unfold scan_constant, settled.
  destruct (strip_prefix "NaN" s) eqn:H1;
    [apply strip_prefix_length in H1; split;
       [discriminate|intros ? ? [= <- <-]; exact H1]|].
  destruct (strip_prefix "Infinity" s) eqn:H2;
    [apply strip_prefix_length in H2; split;
       [discriminate|intros ? ? [= <- <-]; exact H2]|].
  destruct (strip_prefix "-Infinity" s) eqn:H3;
    [apply strip_prefix_length in H3; split;
       [discriminate|intros ? ? [= <- <-]; exact H3]|].
  split; [discriminate|intros ? ? [=]].
Qed.

Lemma scan_literal_settled s :
  settled s match scan_number s with
            | Some (n, rest) => Scanned n rest
            | None => scan_constant s
            end.
Proof.
  destruct (scan_number s) as [[n rest]|] eqn:H.
  - apply scan_number_length in H. split;
      [discriminate|intros ? ? [= <- <-]; exact H].
  - apply scan_constant_settled.
Qed.

Lemma scan_word_settled w v s : settled s (scan_word w v s).
Proof.
  unfold scan_word. destruct (strip_prefix w s) eqn:H.
  - apply strip_prefix_length in H. split;
      [discriminate|intros ? ? [= <- <-]; exact H].
  - apply scan_literal_settled.
Qed.

Lemma settled_malformed {A} s : settled s (@Malformed A).
Proof. split; [discriminate|intros ? ? [=]]. Qed.

Lemma settled_scanned {A} s (a : A) rest :
  String.length rest <= String.length s -> settled s (Scanned a rest).
Proof. intros H. split; [discriminate|intros ? ? [= <- <-]; exact H]. Qed.

Lemma settled_weaken {A} s t (r : scan A) :
  settled t r -> String.length t <= String.length s -> settled s r.
Proof.
  intros [Hne Hsc] Hle. split; [exact Hne|].
  intros a rest H. specialize (Hsc _ _ H). lia.
Qed.

Lemma settled_map {A B} (g : A -> B) s (r : scan A) :
  settled s r ->
  settled s match r with
            | Scanned a rest => Scanned (g a) rest
            | Malformed => Malformed
            | Exhausted => Exhausted
            end.
Proof.
  intros [Hne Hsc]. destruct r; [|apply settled_malformed|contradiction].
  apply settled_scanned. eauto.
Qed.

Lemma skip_ws_cons s c t :
  skip_ws s = String c t -> S (String.length t) <= String.length s.
Proof.
  intros H. pose proof (skip_ws_length s) as Hl. rewrite H in Hl. exact Hl.
Qed.

Lemma scan_total fuel :
  (forall s, 2 * String.length s + 1 <= fuel -> settled s (scan_once fuel s))
  /\ (forall s pairs, 2 * String.length s + 1 <= fuel ->
        settled s (members fuel s pairs))
  /\ (forall s values, 2 * String.length s + 2 <= fuel ->
        settled s (elements fuel s values)).
Proof.
  induction fuel as [|f (IHs & IHm & IHe)].
  - repeat split; intros; lia.
  - split; [|split].
    + intros s Hf. destruct s as [|c s']; cbn [scan_once];
        [apply settled_malformed|].
      simpl in Hf.
      destruct (Ascii.eqb c Str.dquote).
      { destruct (scanstring_total (S (String.length s')) s' ltac:(lia))
          as [Hne Hsc].
        destruct (scanstring s') as [str rest| |] eqn:Hstr;
          [|apply settled_malformed|contradiction].
        apply settled_scanned. specialize (Hsc _ _ eq_refl). simpl. lia. }
      destruct (Ascii.eqb c "{").
      { destruct (skip_ws s') as [|d s1] eqn:Hw; [apply settled_malformed|].
        apply skip_ws_cons in Hw.
        destruct (Ascii.eqb d "}"); [apply settled_scanned; simpl; lia|].
        destruct (Ascii.eqb d Str.dquote); [|apply settled_malformed].
        apply settled_map. eapply settled_weaken;
          [apply IHm; lia|simpl; lia]. }
      destruct (Ascii.eqb c "[").
      { destruct (skip_ws s') as [|d s1] eqn:Hw; [apply settled_malformed|].
        apply skip_ws_cons in Hw.
        destruct (Ascii.eqb d "]"); [apply settled_scanned; simpl; lia|].
        apply settled_map. eapply settled_weaken;
          [apply IHe; simpl; lia|simpl; lia]. }
      destruct (Ascii.eqb c "n"); [apply scan_word_settled|].
      destruct (Ascii.eqb c "t"); [apply scan_word_settled|].
      destruct (Ascii.eqb c "f"); [apply scan_word_settled|].
      apply scan_literal_settled.
    + intros s pairs Hf. cbn [members].
      destruct (scanstring_total (S (String.length s)) s ltac:(lia))
        as [Hne Hsc].
      destruct (scanstring s) as [key s1| |] eqn:Hkey;
        [|apply settled_malformed|contradiction].
      specialize (Hsc _ _ eq_refl).
      destruct (skip_ws s1) as [|c s2] eqn:Hw1; [apply settled_malformed|].
      apply skip_ws_cons in Hw1.
      destruct (Ascii.eqb c ":"); [|apply settled_malformed].
      pose proof (skip_ws_length s2) as Hw2.
      destruct (IHs (skip_ws s2) ltac:(lia)) as [Hne' Hsc'].
      destruct (scan_once f (skip_ws s2)) as [value s3| |] eqn:Hval;
        [|apply settled_malformed|contradiction].
      specialize (Hsc' _ _ eq_refl).
      destruct (skip_ws s3) as [|d s4] eqn:Hw3; [apply settled_malformed|].
      apply skip_ws_cons in Hw3.
      destruct (Ascii.eqb d "}"); [apply settled_scanned; lia|].
      destruct (Ascii.eqb d ","); [|apply settled_malformed].
      destruct (skip_ws s4) as [|q s5] eqn:Hw4; [apply settled_malformed|].
      apply skip_ws_cons in Hw4.
      destruct (Ascii.eqb q Str.dquote); [|apply settled_malformed].
      eapply settled_weaken; [apply IHm; lia|lia].
    + intros s values Hf. cbn [elements].
      destruct (IHs s ltac:(lia)) as [Hne Hsc].
      destruct (scan_once f s) as [value s1| |] eqn:Hval;
        [|apply settled_malformed|contradiction].
      specialize (Hsc _ _ eq_refl).
      destruct (skip_ws s1) as [|d s2] eqn:Hw1; [apply settled_malformed|].
      apply skip_ws_cons in Hw1.
      destruct (Ascii.eqb d "]"); [apply settled_scanned; lia|].
      destruct (Ascii.eqb d ","); [|apply settled_malformed].
      pose proof (skip_ws_length s2) as Hw2.
      eapply settled_weaken; [apply IHe; lia|lia].
Qed.

(** The decoder always comes to an answer: the recursion depth it is
    given is never used up. *)
Lemma decode_total s : decode s <> Exhausted.
Proof.
  unfold decode, depth. pose proof (skip_ws_length s) as Hw.
  destruct (proj1 (scan_total (2 * String.length s + 2)) (skip_ws s)
              ltac:(lia)) as [Hne _].
  destruct (scan_once _ _) as [v rest| |]; [|discriminate|contradiction].
  destruct (skip_ws rest); discriminate.
Qed.

End Decoder.

(** * Properties of the router *)

Section Router.

Context {World : Type}.

Local Open Scope list_scope.

Implicit Types (self : AIService World) (st : St World)
  (prompt name : string) (kw : kwargs).

Lemma get_of_contains {V} (k : string) (d : Dict.t V) :
  Dict.contains k d = true -> exists v, Dict.get k d = Some v.
Proof.
  induction d as [|[k' v'] d IH]; simpl; [discriminate|].
  destruct (String.eqb k k'); eauto.
Qed.

Lemma contains_of_key {V} (k : string) (d : Dict.t V) :
  In k (Dict.keys d) -> Dict.contains k d = true.
Proof.
  induction d as [|[k' v'] d IH]; simpl; [tauto|].
  intros [->|Hin].
  - now rewrite String.eqb_refl.
  - destruct (String.eqb k k'); auto.
Qed.

Lemma get_in {V} (k : string) (v : V) (d : Dict.t V) :
  Dict.get k d = Some v -> In (k, v) d.
Proof.
  induction d as [|[k' v'] d IH]; simpl; [discriminate|].
  destruct (String.eqb_spec k k') as [->|Hne].
  - intros [= ->]. now left.
  - intros H. right. auto.
Qed.

(** One registered adapter is tried: the call is logged and the world
    moves on, whatever the outcome. *)
Lemma try_registered self k p prompt kw st :
  Dict.get k (providers self) = Some p ->
  bind (getitem (providers self) k) (fun q => invoke k q prompt kw) st
  = (fst (provider_generate p prompt kw (world st)),
     mkSt (snd (provider_generate p prompt kw (world st)))
          (calls st ++ [k])).
Proof.
  intros Hget. unfold bind, getitem, invoke. rewrite Hget. simpl.
  now destruct (provider_generate p prompt kw (world st)).
Qed.

(** What the fallback loop does over a list of registered keys: it
    invokes a prefix of the keys other than [name], in order; it stops
    early only on a success; and having run out it raises the generic
    error. *)
Lemma fallback_trace self ks name prompt kw :
  (forall k, In k ks -> Dict.contains k (providers self) = true) ->
  forall st,
  exists tried rest,
    others name ks = tried ++ rest
    /\ calls (snd (fallback self ks name prompt kw st))
       = calls st ++ tried
    /\ match fst (fallback self ks name prompt kw st) with
       | inr _ => tried <> []
       | inl e => e = Exception "All AI providers failed" /\ rest = []
       end.
Proof.
  induction ks as [|k ks IH]; intros Hreg st.
  - exists [], []. simpl. rewrite app_nil_r. auto.
  - assert (Hreg' : forall k', In k' ks ->
              Dict.contains k' (providers self) = true)
      by (intros; apply Hreg; now right).
    simpl. destruct (String.eqb k name) eqn:Hk; simpl.
    + apply IH; assumption.
    + destruct (get_of_contains k (providers self)) as [p Hp];
        [apply Hreg; now left|].
      unfold try_except. rewrite (try_registered _ _ _ _ _ _ Hp).
      destruct (provider_generate p prompt kw (world st)) as [[e|text] w'];
        simpl.
      * destruct (IH Hreg' (mkSt w' (calls st ++ [k])))
          as (tried & rest & Heq & Hcalls & Hres).
        exists (k :: tried), rest. rewrite Heq. split; [reflexivity|].
        split.
        -- rewrite Hcalls. simpl. now rewrite <- app_assoc.
        -- destruct (fst (fallback self ks name prompt kw _)).
           ++ assumption.
           ++ discriminate.
      * exists [k], (others name ks). repeat split; discriminate.
Qed.

(** When every adapter fails, the loop goes through all the others. *)
Lemma fallback_exhausts self ks name prompt kw :
  (forall k, In k ks -> Dict.contains k (providers self) = true) ->
  (forall k p, In (k, p) (providers self) -> always_fails p) ->
  forall st,
    fst (fallback self ks name prompt kw st)
    = inl (Exception "All AI providers failed")
    /\ calls (snd (fallback self ks name prompt kw st))
       = calls st ++ others name ks.
Proof.
  intros Hreg Hfail. induction ks as [|k ks IH]; intros st.
  - simpl. now rewrite app_nil_r.
  - assert (Hreg' : forall k', In k' ks ->
              Dict.contains k' (providers self) = true)
      by (intros; apply Hreg; now right).
    simpl. destruct (String.eqb k name) eqn:Hk; simpl.
    + apply IH; assumption.
    + destruct (get_of_contains k (providers self)) as [p Hp];
        [apply Hreg; now left|].
      unfold try_except. rewrite (try_registered _ _ _ _ _ _ Hp).
      destruct (Hfail k p (get_in _ _ _ Hp) prompt kw (world st))
        as (e & w' & Hrun & _).
      rewrite Hrun. simpl.
      destruct (IH Hreg' (mkSt w' (calls st ++ [k]))) as [Hres Hcalls].
      split; [assumption|].
      rewrite Hcalls. simpl. now rewrite <- app_assoc.
Qed.

(** The first attempt on a registered adapter, in its three outcomes. *)
Lemma attempt_success self name p prompt kw st text w' :
  Dict.get name (providers self) = Some p ->
  provider_generate p prompt kw (world st) = (inr text, w') ->
  attempt self name prompt kw st
  = (inr text, mkSt w' (calls st ++ [name])).
Proof.
  intros Hp Hrun. unfold attempt, try_except.
  rewrite (try_registered _ _ _ _ _ _ Hp), Hrun. reflexivity.
Qed.

Lemma attempt_failure self name p prompt kw st e w' :
  Dict.get name (providers self) = Some p ->
  provider_generate p prompt kw (world st) = (inl e, w') ->
  derives_Exception e = true ->
  attempt self name prompt kw st
  = fallback self (Dict.keys (providers self)) name prompt kw
      (mkSt w' (calls st ++ [name])).
Proof.
  intros Hp Hrun He. unfold attempt, try_except.
  rewrite (try_registered _ _ _ _ _ _ Hp), Hrun. simpl.
  now rewrite He.
Qed.

(** Whatever happens, the adapter chosen first is the first one logged. *)
Lemma attempt_first self name prompt kw st :
  Dict.contains name (providers self) = true ->
  exists more,
    calls (snd (attempt self name prompt kw st))
    = calls st ++ name :: more.
Proof.
  intros Hc. destruct (get_of_contains _ _ Hc) as [p Hp].
  destruct (provider_generate p prompt kw (world st)) as [[e|text] w']
    eqn:Hrun.
  - destruct (derives_Exception e) eqn:He.
    + rewrite (attempt_failure _ _ _ _ _ _ _ _ Hp Hrun He).
      destruct (fallback_trace self (Dict.keys (providers self)) name
                  prompt kw (fun k => contains_of_key k _)
                  (mkSt w' (calls st ++ [name])))
        as (tried & rest & _ & Hcalls & _).
      exists tried. rewrite Hcalls. simpl. now rewrite <- app_assoc.
    + exists []. unfold attempt, try_except.
      rewrite (try_registered _ _ _ _ _ _ Hp), Hrun. simpl.
      now rewrite He.
  - exists []. now rewrite (attempt_success _ _ _ _ _ _ _ _ Hp Hrun).
Qed.

Lemma others_NoDup name ks : NoDup ks -> NoDup (name :: others name ks).
Proof.
  intros Hnd. constructor.
  - unfold others. rewrite filter_In. intros [_ H].
    now rewrite String.eqb_refl in H.
  - now apply NoDup_filter.
Qed.

Lemma NoDup_prefix {A} (l1 l2 : list A) : NoDup (l1 ++ l2) -> NoDup l1.
Proof.
  induction l1 as [|a l1 IH]; simpl; intros H; [constructor|].
  inversion H; subst. constructor.
  - intros Hin. apply H2. apply in_or_app. now left.
  - auto.
Qed.

Lemma key_of_contains {V} (k : string) (d : Dict.t V) :
  Dict.contains k d = true -> In k (Dict.keys d).
Proof.
  induction d as [|[k' v'] d IH]; simpl; [discriminate|].
  destruct (String.eqb_spec k k') as [->|Hne]; auto.
Qed.

Lemma others_length name ks :
  NoDup ks -> In name ks -> S (length (others name ks)) = length ks.
Proof.
  induction 1 as [|k ks Hnotin Hnd IH]; simpl; [tauto|].
  intros [->|Hin].
  - rewrite String.eqb_refl. simpl. f_equal.
    clear IH Hnd. induction ks as [|k' ks IH]; simpl; [reflexivity|].
    destruct (String.eqb_spec k' name) as [->|Hne]; simpl.
    + exfalso. apply Hnotin. now left.
    + f_equal. apply IH. intros H. apply Hnotin. now right.
  - destruct (String.eqb_spec k name) as [->|Hne]; simpl.
    + contradiction.
    + f_equal. auto.
Qed.

(** The adapter chosen first is a registered one. *)
Lemma resolved_is_registered self provider name :
  resolve_provider self provider = inr name ->
  Dict.contains name (providers self) = true.
Proof.
  unfold resolve_provider.
  destruct (Dict.contains _ (providers self)) eqn:Hc.
  - now intros [= <-].
  - destruct (Dict.keys (providers self)) as [|first ks] eqn:Hks;
      [discriminate|].
    intros [= <-]. apply contains_of_key. rewrite Hks. now left.
Qed.

Lemma resolve_nonempty self provider :
  providers self <> [] ->
  exists name, resolve_provider self provider = inr name.
Proof.
  intros Hne. unfold resolve_provider.
  destruct (Dict.contains _ (providers self)); eauto.
  destruct (providers self) as [|[k v] d]; [contradiction|].
  simpl. eauto.
Qed.



(** C7. On an empty registry every call fails at once with the
    no-providers error, [ValueError("No AI providers available")]; the
    state is untouched, so no adapter was invoked and nothing was sent. *)
Theorem empty_registry_fails self prompt provider kw st :
  providers self = [] ->
  generate self prompt provider kw st
  = (inl (ValueError "No AI providers available"), st).
Proof.
  intros Hempty. unfold generate, resolve_provider.
  now rewrite Hempty.
Qed.



(** C1, as the code has it. Registry [{A, B}] in that order, default [A],
    no override, [A] failing and [B] answering: the route returns [B]'s
    text in a response whose [provider] field is the requested name,
    [A], and whose [model] is [auto]. *)
Theorem fallback_result_tagged_with_default
    self request a pa b pb st e w1 text w2 :
  providers self = [(a, pa); (b, pb)] ->
  a <> b ->
  default_provider self = a ->
  req_provider request = None ->
  provider_generate pa (req_prompt request) (request_kwargs request)
    (world st) = (inl e, w1) ->
  derives_Exception e = true ->
  provider_generate pb (req_prompt request) (request_kwargs request) w1
  = (inr text, w2) ->
  generate_text request self st
  = (inr (mkGenerateResponse text a "auto"),
     mkSt w2 (calls st ++ [a; b])).
Proof.
  intros Hps Hab Hdef Hnone Ha He Hb.
  assert (Hpa : Dict.get a (providers self) = Some pa)
    by (rewrite Hps; simpl; now rewrite String.eqb_refl).
  assert (Hba : String.eqb b a = false)
    by (apply String.eqb_neq; congruence).
  assert (Hpb : Dict.get b (providers self) = Some pb)
    by (rewrite Hps; simpl; now rewrite Hba, String.eqb_refl).
  assert (Hgen : generate self (req_prompt request) None
                   (request_kwargs request) st
                 = (inr text, mkSt w2 (calls st ++ [a; b]))).
  { unfold generate, resolve_provider. simpl. rewrite Hdef.
    rewrite (contains_of_key a (providers self))
      by (rewrite Hps; now left).
    rewrite (attempt_failure _ _ _ _ _ _ _ _ Hpa Ha He).
    rewrite Hps at 1. simpl. rewrite String.eqb_refl, Hba.
    unfold try_except. rewrite (try_registered _ _ _ _ _ _ Hpb).
    simpl. rewrite Hb. simpl. now rewrite <- app_assoc. }
  unfold generate_text, try_except, bind. rewrite Hnone, Hgen.
  simpl. now rewrite Hdef.
Qed.

End Router.

(** ** The router on concrete registries *)

Section RouterRuns.

Import Doubles.
Local Open Scope list_scope.



Lemma empty_registry_fails_witness :
  generate nothing_configured "Say OK" None [] idle
  = (inl (ValueError "No AI providers available"), idle).
Proof.
  apply (empty_registry_fails nothing_configured "Say OK" None [] idle).
  reflexivity.
Defined.

Lemma three_down_wf : Dict.wf (providers three_down).
Proof.
  unfold Dict.wf. simpl.
  repeat constructor; simpl; intuition discriminate.
Defined.


Lemma failing_always_fails :
  forall k p, In (k, p) (providers three_down) -> always_fails p.
Proof.
  intros k p Hin prompt kw w. exists timeout, (S w).
  simpl in Hin.
  destruct Hin as [[= _ <-]|[[= _ <-]|[[= _ <-]|[]]]]; split; reflexivity.
Defined.



Lemma fallback_result_tagged_with_default_witness :
  generate_text plain_request a_fails_b_answers idle
  = (inr (mkGenerateResponse "hello" "A" "auto"),
     mkSt 2 (calls idle ++ ["A"; "B"])).
Proof.
  apply (fallback_result_tagged_with_default a_fails_b_answers
           plain_request "A" (failing timeout) "B" (answering "hello")
           idle timeout 1 "hello" 2); try reflexivity.
  discriminate.
Defined.

(** C1, refuted as stated. With [A] failing and [B] answering, the
    response carries [B]'s text, both adapters were invoked in that
    order, and the [provider] field reads [A]. *)
Lemma fallback_result_not_tagged_with_server :
  exists r st',
    generate_text plain_request a_fails_b_answers idle = (inr r, st')
    /\ response r = "hello"
    /\ calls st' = ["A"; "B"]
    /\ provider r = "A"
    /\ provider r <> "B".
Proof.
  eexists. eexists. split; [vm_compute; reflexivity|].
  simpl. repeat split. discriminate.
Qed.

End RouterRuns.


(** * Properties of the string methods *)

Section Strings.

Local Open Scope Z_scope.

Implicit Types (c : ascii) (s pre mid post : string).

Lemma prefix_char c s :
  String.prefix (String c EmptyString) s
  = match s with
    | String c' _ => Ascii.eqb c c'
    | EmptyString => false
    end.
Proof.
  destruct s as [|c' s']; simpl; [reflexivity|].
  destruct (ascii_dec c c') as [->|Hne].
  - rewrite Ascii.eqb_refl. now destruct s'.
  - symmetry. now apply Ascii.eqb_neq.
Qed.

Lemma lacks_get c s :
  Str.lacks c s = true -> forall i, String.get i s <> Some c.
Proof.
  induction s as [|c' s IH]; simpl; intros H i.
  - now destruct i.
  - destruct (Ascii.eqb_spec c' c) as [->|Hne]; [discriminate|].
    destruct i as [|i]; simpl.
    + congruence.
    + now apply IH.
Qed.

Lemma get_lacks c s :
  (forall i, String.get i s <> Some c) -> Str.lacks c s = true.
Proof.
  induction s as [|c' s IH]; simpl; intros H; [reflexivity|].
  destruct (Ascii.eqb_spec c' c) as [->|Hne].
  - now destruct (H 0%nat).
  - apply IH. intros i. exact (H (S i)).
Qed.

(** [find] answers -1 or the index of an occurrence. *)
Lemma find_from_char c s :
  forall k,
    Str.find_from (String c EmptyString) s k = -1
    \/ exists i, Str.find_from (String c EmptyString) s k = k + Z.of_nat i
                 /\ String.get i s = Some c.
Proof.
  induction s as [|c' s IH]; intros k.
  - left. reflexivity.
  - unfold Str.find_from; fold Str.find_from. rewrite prefix_char.
    destruct (Ascii.eqb_spec c c') as [<-|Hne].
    + right. exists 0%nat. split; [lia|reflexivity].
    + destruct (IH (k + 1)) as [H|(i & H & Hget)]; [now left|].
      right. exists (S i). split; [lia|assumption].
Qed.

(** [rfind] answers -1 or the index of an occurrence. *)
Lemma rfind_from_char c s :
  forall k,
    Str.rfind_from (String c EmptyString) s k = -1
    \/ exists i, Str.rfind_from (String c EmptyString) s k = k + Z.of_nat i
                 /\ String.get i s = Some c.
Proof.
  induction s as [|c' s IH]; intros k.
  - left. reflexivity.
  - unfold Str.rfind_from; fold Str.rfind_from. cbv zeta.
    destruct (IH (k + 1)) as [H|(i & H & Hget)].
    + rewrite H. simpl Z.eqb. cbv iota. rewrite prefix_char.
      destruct (Ascii.eqb_spec c c') as [<-|Hne]; [|now left].
      right. exists 0%nat. split; [lia|reflexivity].
    + destruct (Z.eqb_spec (Str.rfind_from (String c EmptyString) s (k + 1))
                  (-1)) as [Heq|Hneq].
      * rewrite prefix_char.
        destruct (Ascii.eqb_spec c c') as [<-|Hne]; [|now left].
        right. exists 0%nat. split; [lia|reflexivity].
      * right. exists (S i). split; [lia|assumption].
Qed.

(** What [no_brace_pair] decides. *)
Lemma no_brace_pair_spec s :
  no_brace_pair s = true
  <-> (forall i j, (i < j)%nat ->
         String.get i s = Some "{"%char -> String.get j s = Some "}"%char ->
         False).
Proof.
  induction s as [|c s IH]; simpl.
  - split; [|reflexivity]. intros _ i j _ H. now destruct i.
  - destruct (Ascii.eqb_spec c "{"%char) as [->|Hne].
    + split.
      * intros Hl i j Hij _ Hj. destruct j as [|j]; [lia|].
        exact (lacks_get _ _ Hl j Hj).
      * intros H. apply get_lacks. intros j Hj.
        apply (H 0%nat (S j)); [lia|reflexivity|exact Hj].
    + rewrite IH. split.
      * intros H i j Hij Hi Hj.
        destruct i as [|i]; [simpl in Hi; congruence|].
        destruct j as [|j]; [lia|].
        apply (H i j); [lia|assumption|assumption].
      * intros H i j Hij Hi Hj.
        apply (H (S i) (S j)); [lia|assumption|assumption].
Qed.

(** The first occurrence comes after a prefix without the character. *)
Lemma find_from_skip c pre s :
  Str.lacks c pre = true ->
  forall k,
    Str.find_from (String c EmptyString) (pre ++ String c s) k
    = k + Str.len pre.
Proof.
  unfold Str.len.
  induction pre as [|c' pre IH]; intros Hl k.
  - simpl String.append. unfold Str.find_from. rewrite prefix_char.
    rewrite Ascii.eqb_refl. simpl. lia.
  - simpl in Hl. destruct (Ascii.eqb_spec c' c) as [->|Hne]; [discriminate|].
    simpl String.append.
    unfold Str.find_from; fold Str.find_from. rewrite prefix_char.
    replace (Ascii.eqb c c') with false
      by (symmetry; apply Ascii.eqb_neq; congruence).
    rewrite (IH Hl). simpl String.length. lia.
Qed.

Lemma rfind_from_lacks c s :
  Str.lacks c s = true ->
  forall k, Str.rfind_from (String c EmptyString) s k = -1.
Proof.
  induction s as [|c' s IH]; intros Hl k.
  - reflexivity.
  - simpl in Hl. destruct (Ascii.eqb_spec c' c) as [->|Hne]; [discriminate|].
    unfold Str.rfind_from; fold Str.rfind_from. cbv zeta.
    rewrite (IH Hl). simpl Z.eqb. cbv iota. rewrite prefix_char.
    replace (Ascii.eqb c c') with false
      by (symmetry; apply Ascii.eqb_neq; congruence).
    reflexivity.
Qed.

(** The last occurrence comes before a suffix without the character. *)
Lemma rfind_from_last c pre post :
  Str.lacks c post = true ->
  forall k, 0 <= k ->
    Str.rfind_from (String c EmptyString) (pre ++ String c post) k
    = k + Str.len pre.
Proof.
  unfold Str.len. intros Hl.
  induction pre as [|c' pre IH]; intros k Hk.
  - simpl String.append.
    unfold Str.rfind_from; fold Str.rfind_from. cbv zeta.
    rewrite (rfind_from_lacks _ _ Hl). simpl Z.eqb. cbv iota.
    rewrite prefix_char, Ascii.eqb_refl. simpl. lia.
  - simpl String.append.
    unfold Str.rfind_from; fold Str.rfind_from. cbv zeta.
    rewrite IH by lia.
    destruct (Z.eqb_spec (k + 1 + Z.of_nat (String.length pre)) (-1));
      [lia|].
    simpl String.length. lia.
Qed.

Lemma length_append s1 s2 :
  String.length (s1 ++ s2) = (String.length s1 + String.length s2)%nat.
Proof. induction s1; simpl; congruence. Qed.

Lemma substring_skip pre s n :
  String.substring (String.length pre) n (pre ++ s) = String.substring 0 n s.
Proof. induction pre; simpl; auto. Qed.

Lemma substring_take mid post :
  String.substring 0 (String.length mid) (mid ++ post) = mid.
Proof.
  induction mid as [|c mid IH]; simpl.
  - now destruct post.
  - now rewrite IH.
Qed.

(** A slice whose bounds are the ends of a middle part is that part. *)
Lemma slice_middle pre mid post :
  Str.slice (pre ++ mid ++ post) (Str.len pre) (Str.len pre + Str.len mid)
  = mid.
Proof.
  unfold Str.slice, Str.clamp, Str.len.
  rewrite !length_append.
  destruct (Z.ltb_spec (Z.of_nat (String.length pre)) 0); [lia|].
  destruct (Z.ltb_spec
              (Z.of_nat (String.length pre) + Z.of_nat (String.length mid))
              0); [lia|].
  rewrite !Z.min_l by lia.
  replace (Z.of_nat (String.length pre) + Z.of_nat (String.length mid)
           - Z.of_nat (String.length pre))
    with (Z.of_nat (String.length mid)) by lia.
  rewrite !Nat2Z.id, substring_skip. apply substring_take.
Qed.

Lemma append_assoc s1 s2 s3 : (s1 ++ s2) ++ s3 = s1 ++ (s2 ++ s3).
Proof. induction s1; simpl; congruence. Qed.

End Strings.


(** * Properties of the derived operations *)

Section Derived.

Context {World : Type}.

Implicit Types (self : AIService World) (st : St World)
  (text raw pre mid post : string).

(** [json.loads] raises nothing but its decode error. *)
Lemma loads_raises s e :
  Json.loads s = inl e -> derives_Exception e = true.
Proof.
  unfold Json.loads. destruct (Json.decode s); intros [= <-]; reflexivity.
Qed.

(** The parsing step leaves the state alone, and what it raises is an
    error that [except Exception] handles. *)
Lemma extract_json_raises raw (d : pyval) st e st' :
  extract_json raw d st = (inl e, st') ->
  derives_Exception e = true /\ st' = st.
Proof.
  unfold extract_json.
  destruct (negb _ && _).
  - destruct (Json.loads _) as [e'|v] eqn:Hl; simpl.
    + intros [= <- <-]. split; [exact (loads_raises _ _ Hl)|reflexivity].
    + discriminate.
  - discriminate.
Qed.

(** Without a brace pair nothing is parsed. *)
Lemma extract_json_no_pair raw (d : pyval) st :
  no_brace_pair raw = true -> extract_json raw d st = (inr d, st).
Proof.
  intros Hnp. rewrite no_brace_pair_spec in Hnp.
  unfold extract_json, Str.find, Str.rfind.
  destruct (find_from_char "{" raw 0) as [H|(i & H & Hi)]; rewrite H.
  - reflexivity.
  - destruct (rfind_from_char "}" raw 0) as [H'|(j & H' & Hj)]; rewrite H'.
    + replace (-1 + 1 >? 0 + Z.of_nat i)%Z with false
        by (symmetry; rewrite Z.gtb_ltb; apply Z.ltb_ge; lia).
      now rewrite andb_false_r.
    + destruct (0 + Z.of_nat j + 1 >? 0 + Z.of_nat i)%Z eqn:Hgt;
        [|now rewrite andb_false_r].
      exfalso. rewrite Z.gtb_ltb in Hgt. apply Z.ltb_lt in Hgt.
      assert (i <> j) by (intros ->; rewrite Hi in Hj; discriminate).
      apply (Hnp i j); [lia|assumption|assumption].
Qed.

(** With no opening brace before a brace-delimited part and no closing
    brace after it, exactly that part is parsed. *)
Lemma extract_json_span pre mid post (d : pyval) st :
  Str.lacks "{" pre = true ->
  Str.lacks "}" post = true ->
  extract_json
    (pre ++ String "{" (mid ++ String "}" EmptyString) ++ post) d st
  = lift (Json.loads (String "{" (mid ++ String "}" EmptyString))) st.
Proof.
  intros Hpre Hpost. unfold extract_json, Str.find, Str.rfind.
  set (span := String "{" (mid ++ String "}" EmptyString)).
  assert (Hfind : Str.find_from "{" (pre ++ span ++ post) 0
                  = (0 + Str.len pre)%Z)
    by (unfold span; simpl String.append; now apply find_from_skip).
  assert (Hrfind : Str.rfind_from "}" (pre ++ span ++ post) 0
                   = (0 + Str.len (pre ++ String "{" mid))%Z).
  { replace (pre ++ span ++ post)
      with ((pre ++ String "{" mid) ++ String "}" post).
    - apply rfind_from_last; [assumption|lia].
    - unfold span. rewrite append_assoc. simpl. f_equal. f_equal.
      now rewrite append_assoc. }
  rewrite Hfind, Hrfind.
  assert (Hlen : (Str.len (pre ++ String "{" mid) + 1
                  = Str.len pre + Str.len span)%Z).
  { unfold Str.len, span. rewrite !length_append. simpl.
    rewrite length_append. simpl. lia. }
  replace (0 + Str.len (pre ++ String "{" mid) + 1)%Z
    with (Str.len pre + Str.len span)%Z by lia.
  replace (0 + Str.len pre)%Z with (Str.len pre) by lia.
  assert (Hpos : (0 < Str.len span)%Z) by (unfold Str.len, span; simpl; lia).
  assert (Hnn : (0 <= Str.len pre)%Z) by (unfold Str.len; lia).
  replace (negb (Str.len pre =? -1)%Z) with true
    by (symmetry; apply negb_true_iff, Z.eqb_neq; lia).
  replace (Str.len pre + Str.len span >? Str.len pre)%Z with true
    by (symmetry; rewrite Z.gtb_ltb; apply Z.ltb_lt; lia).
  simpl andb. cbv iota. now rewrite slice_middle.
Qed.

Lemma upbeat_json_shape :
  exists mid, upbeat_json = String "{" (mid ++ String "}" EmptyString).
Proof.
  exists (String.substring 1 (String.length upbeat_json - 2) upbeat_json).
  vm_compute. reflexivity.
Qed.

Lemma upbeat_json_loads : Json.loads upbeat_json = inr upbeat_record.
Proof. vm_compute. reflexivity. Qed.

(** C9. When the router's response has no opening brace followed by a
    closing brace (in particular when it has no brace of one kind),
    [analyze_sentiment] returns the record neutral / 0.5 / no emotions /
    unclear, and raises nothing. *)
Theorem no_braces_gives_unclear self text st raw st' :
  generate self (sentiment_prompt text) None low_temperature st
  = (inr raw, st') ->
  no_brace_pair raw = true ->
  analyze_sentiment self text st = (inr sentiment_unclear, st').
Proof.
  intros Hgen Hnp. unfold analyze_sentiment, try_except, bind.
  rewrite Hgen. now rewrite extract_json_no_pair.
Qed.

(** C8, as the code has it. When the example object stands in the
    response with no opening brace before it and no closing brace after
    it, [analyze_sentiment] returns exactly the record it denotes. *)
Theorem embedded_json_recovered self text st pre post st' :
  Str.lacks "{" pre = true ->
  Str.lacks "}" post = true ->
  generate self (sentiment_prompt text) None low_temperature st
  = (inr (pre ++ upbeat_json ++ post), st') ->
  analyze_sentiment self text st = (inr upbeat_record, st').
Proof.
  intros Hpre Hpost Hgen. unfold analyze_sentiment, try_except, bind.
  rewrite Hgen. destruct upbeat_json_shape as [mid Hshape].
  pose proof upbeat_json_loads as Hloads.
  rewrite Hshape in Hloads |- *.
  rewrite (extract_json_span _ _ _ _ _ Hpre Hpost), Hloads.
  reflexivity.
Qed.

(** C2, as the code has it. Both operations catch a failure of the
    router call that [except Exception] handles (the router's own two
    errors among them) and answer with their error record; a failure to
    parse the returned text is answered with the same record. Neither is
    passed on to the caller. *)
Theorem derived_ops_absorb_failures self text st :
  (forall e st',
     generate self (sentiment_prompt text) None low_temperature st
     = (inl e, st') ->
     derives_Exception e = true ->
     analyze_sentiment self text st = (inr sentiment_error, st'))
  /\ (forall e st',
        generate self (intent_prompt text) None low_temperature st
        = (inl e, st') ->
        derives_Exception e = true ->
        extract_intent self text st = (inr intent_error, st'))
  /\ (forall raw st' e st'',
        generate self (sentiment_prompt text) None low_temperature st
        = (inr raw, st') ->
        extract_json raw sentiment_unclear st' = (inl e, st'') ->
        analyze_sentiment self text st = (inr sentiment_error, st'))
  /\ (forall raw st' e st'',
        generate self (intent_prompt text) None low_temperature st
        = (inr raw, st') ->
        extract_json raw intent_clarify st' = (inl e, st'') ->
        extract_intent self text st = (inr intent_error, st')).
Proof.
  repeat split.
  - intros e st' Hgen He. unfold analyze_sentiment, try_except, bind.
    now rewrite Hgen, He.
  - intros e st' Hgen He. unfold extract_intent, try_except, bind.
    now rewrite Hgen, He.
  - intros raw st' e st'' Hgen Hparse.
    destruct (extract_json_raises _ _ _ _ _ Hparse) as [He ->].
    unfold analyze_sentiment, try_except, bind.
    now rewrite Hgen, Hparse, He.
  - intros raw st' e st'' Hgen Hparse.
    destruct (extract_json_raises _ _ _ _ _ Hparse) as [He ->].
    unfold extract_intent, try_except, bind.
    now rewrite Hgen, Hparse, He.
Qed.

(** The one kind of failure the two operations do pass on: a signal
    outside [Exception] raised by the adapter tried first. *)
Lemma derived_ops_pass_signals self text st e st' :
  generate self (sentiment_prompt text) None low_temperature st
  = (inl e, st') ->
  derives_Exception e = false ->
  analyze_sentiment self text st = (inl e, st').
Proof.
  intros Hgen He. unfold analyze_sentiment, try_except, bind.
  now rewrite Hgen, He.
Qed.

End Derived.


(** ** The derived operations on concrete services *)

Section DerivedRuns.

Import Doubles.

Lemma no_braces_gives_unclear_witness :
  analyze_sentiment prose_only "I love it" idle
  = (inr sentiment_unclear, mkSt 1 ["ollama"]).
Proof.
  apply (no_braces_gives_unclear prose_only "I love it" idle
           "The text sounds rather positive." (mkSt 1 ["ollama"])).
  - reflexivity.
  - reflexivity.
Defined.

Lemma embedded_json_recovered_witness :
  analyze_sentiment wrapping "I love it" idle
  = (inr upbeat_record, mkSt 1 ["ollama"]).
Proof.
  apply (embedded_json_recovered wrapping "I love it" idle
           "Here is the analysis: " " Anything else?" (mkSt 1 ["ollama"])).
  - reflexivity.
  - reflexivity.
  - reflexivity.
Defined.

(** C8, refuted as stated. The response holds the example object, yet a
    brace pair after it stretches the parsed span past the object: the
    span is no JSON text, and the error record comes back. *)
Lemma embedded_json_not_recovered :
  chatty_reply = "Result: " ++ upbeat_json ++ " (format: {json})"
  /\ generate chatty (sentiment_prompt "I love it") None low_temperature idle
     = (inr chatty_reply, mkSt 1 ["ollama"])
  /\ analyze_sentiment chatty "I love it" idle
     = (inr sentiment_error, mkSt 1 ["ollama"])
  /\ sentiment_error <> upbeat_record.
Proof.
  split; [reflexivity|].
  split; [vm_compute; reflexivity|].
  split; [vm_compute; reflexivity|].
  discriminate.
Qed.

Lemma derived_ops_absorb_failures_witness :
  analyze_sentiment nothing_configured "I love it" idle
  = (inr sentiment_error, idle)
  /\ extract_intent two_down "I love it" idle
     = (inr intent_error, mkSt 2 ["A"; "B"])
  /\ analyze_sentiment chatty "I love it" idle
     = (inr sentiment_error, mkSt 1 ["ollama"]).
Proof.
  split; [|split].
  - apply (proj1 (derived_ops_absorb_failures nothing_configured
                    "I love it" idle)
             (ValueError "No AI providers available") idle); reflexivity.
  - apply (proj1 (proj2 (derived_ops_absorb_failures two_down
                           "I love it" idle))
             (Exception "All AI providers failed") (mkSt 2 ["A"; "B"]));
      reflexivity.
  - apply (proj1 (proj2 (proj2 (derived_ops_absorb_failures chatty
                                  "I love it" idle)))
             chatty_reply (mkSt 1 ["ollama"])
             (JSONDecodeError "malformed JSON") (mkSt 1 ["ollama"]));
      reflexivity.
Defined.

(** C2, refuted as stated. The router fails (no provider; all providers
    down) and the caller of either operation sees no failure at all, but
    the error record. *)
Lemma router_failure_not_propagated :
  generate nothing_configured (sentiment_prompt "I love it") None
    low_temperature idle
  = (inl (ValueError "No AI providers available"), idle)
  /\ analyze_sentiment nothing_configured "I love it" idle
     = (inr sentiment_error, idle)
  /\ generate two_down (intent_prompt "I love it") None low_temperature idle
     = (inl (Exception "All AI providers failed"), mkSt 2 ["A"; "B"])
  /\ extract_intent two_down "I love it" idle
     = (inr intent_error, mkSt 2 ["A"; "B"]).
Proof. repeat split; vm_compute; reflexivity. Qed.

End DerivedRuns.

(** * Construction of the service *)

Section Startup.

Context {World : Type}.

Variable transport :
  Endpoint -> string -> kwargs -> World -> (exn + string) * World.
Variable sdk_client : Endpoint -> option exn.

Lemma contains_set {V} (k : string) (v : V) (d : Dict.t V) :
  Dict.contains k (Dict.set k v d) = true.
Proof.
  induction d as [|[k' v'] d IH]; simpl.
  - now rewrite String.eqb_refl.
  - destruct (String.eqb k k') eqn:Hk; simpl; now rewrite ?Hk, ?String.eqb_refl.
Qed.

(** Whatever the credentials, initialisation ends with the Ollama entry
    in the registry. *)
Lemma initialize_registers_ollama env ps :
  _initialize_providers transport sdk_client env = inr ps ->
  Dict.contains "ollama" ps = true.
Proof.
  unfold _initialize_providers.
  destruct (register_if_configured _ _ _ _ _) as [e|ps1]; [discriminate|].
  destruct (register_if_configured _ _ _ _ _) as [e|ps2]; [discriminate|].
  destruct (register_if_configured _ _ _ _ _) as [e|ps3]; [discriminate|].
  destruct (register_if_configured _ _ _ _ _) as [e|ps4]; [discriminate|].
  unfold OllamaProvider. intros [= <-]. apply contains_set.
Qed.

(** A first attempt on a registered adapter ends in a text, in the
    generic error of the exhausted fallback, or in a signal outside
    [Exception]. *)
Lemma attempt_outcome (self : AIService World) name prompt kw st :
  Dict.contains name (providers self) = true ->
  match fst (attempt self name prompt kw st) with
  | inr _ => True
  | inl e => e = Exception "All AI providers failed"
             \/ derives_Exception e = false
  end.
Proof.
  intros Hc. destruct (get_of_contains _ _ Hc) as [p Hp].
  destruct (provider_generate p prompt kw (world st)) as [[e|text] w']
    eqn:Hrun.
  - destruct (derives_Exception e) eqn:He.
    + rewrite (attempt_failure _ _ _ _ _ _ _ _ Hp Hrun He).
      destruct (fallback_trace self (Dict.keys (providers self)) name
                  prompt kw (fun k => contains_of_key k _)
                  (mkSt w' (calls st ++ [name])))
        as (tried & rest & _ & _ & Hout).
      destruct (fst (fallback _ _ _ _ _ _)); [|exact I].
      left. apply Hout.
    + unfold attempt, try_except.
      rewrite (try_registered _ _ _ _ _ _ Hp), Hrun. simpl.
      rewrite He. simpl. now right.
  - now rewrite (attempt_success _ _ _ _ _ _ _ _ Hp Hrun).
Qed.

(** C10. A service that has been constructed has the [ollama] entry in
    its registry, whichever credentials are set; so its registry is not
    empty, choosing the first adapter always succeeds, and no call to
    [generate] ends in the no-providers error. *)
Theorem ollama_always_registered env (svc : AIService World) :
  AIService_init transport sdk_client env = inr svc ->
  Dict.contains "ollama" (providers svc) = true
  /\ providers svc <> []
  /\ (forall provider, exists name, resolve_provider svc provider = inr name)
  /\ (forall prompt provider kw st msg,
        fst (generate svc prompt provider kw st) <> inl (ValueError msg)).
Proof.
  unfold AIService_init.
  destruct (_initialize_providers transport sdk_client env) as [e|ps] eqn:Hinit;
    [discriminate|].
  intros [= <-].
  set (svc := mkService ps (getenv env "DEFAULT_AI_PROVIDER" "openai")).
  assert (Hc : Dict.contains "ollama" (providers svc) = true)
    by exact (initialize_registers_ollama _ _ Hinit).
  assert (Hne : providers svc <> [])
    by (intros Hempty; rewrite Hempty in Hc; discriminate).
  repeat split; try assumption.
  - intros provider. now apply resolve_nonempty.
  - intros prompt provider kw st msg. unfold generate.
    destruct (resolve_nonempty svc provider Hne) as [name Hres].
    rewrite Hres.
    pose proof (attempt_outcome svc name prompt kw st
                  (resolved_is_registered _ _ _ Hres)) as Hout.
    destruct (fst (attempt _ _ _ _ _)) as [e|text]; [|discriminate].
    intros [= ->]. destruct Hout as [Hout|Hout]; discriminate.
Qed.

End Startup.

Lemma ollama_always_registered_witness :
  Dict.contains "ollama" (providers Doubles.bare_service) = true
  /\ providers Doubles.bare_service <> []
  /\ (forall provider,
        exists name, resolve_provider Doubles.bare_service provider = inr name)
  /\ (forall prompt provider kw st msg,
        fst (generate Doubles.bare_service prompt provider kw st)
        <> inl (ValueError msg)).
Proof.
  apply (ollama_always_registered Doubles.unreachable Doubles.sdk_ok
           Doubles.bare_env Doubles.bare_service).
  reflexivity.
Defined.


(** * Further properties of the router *)

Section RouterMore.

Context {World : Type}.

Local Open Scope list_scope.

Implicit Types (self : AIService World) (st : St World)
  (prompt name : string) (kw : kwargs).

(** A first attempt that ends in a signal outside [Exception]. *)
Lemma attempt_signal self name p prompt kw st e w' :
  Dict.get name (providers self) = Some p ->
  provider_generate p prompt kw (world st) = (inl e, w') ->
  derives_Exception e = false ->
  attempt self name prompt kw st = (inl e, mkSt w' (calls st ++ [name])).
Proof.
  intros Hp Hrun He. unfold attempt, try_except.
  rewrite (try_registered _ _ _ _ _ _ Hp), Hrun. simpl. now rewrite He.
Qed.

(** A text that comes out of the fallback loop is the answer of the
    adapter the loop invoked last. *)
Lemma fallback_provenance self ks name prompt kw :
  (forall k, In k ks -> Dict.contains k (providers self) = true) ->
  forall st text st',
    fallback self ks name prompt kw st = (inr text, st') ->
    exists k p log w,
      In k ks /\ k <> name
      /\ Dict.get k (providers self) = Some p
      /\ calls st' = log ++ [k]
      /\ provider_generate p prompt kw w = (inr text, world st').
Proof.
  induction ks as [|k ks IH]; intros Hreg st text st'; simpl.
  - discriminate.
  - assert (Hreg' : forall k', In k' ks ->
              Dict.contains k' (providers self) = true)
      by (intros; apply Hreg; now right).
    destruct (String.eqb_spec k name) as [->|Hne].
    + intros H. destruct (IH Hreg' _ _ _ H)
        as (k' & p & log & w & Hin & Hrest).
      exists k', p, log, w. split; [now right|exact Hrest].
    + destruct (get_of_contains k (providers self)) as [p Hp];
        [apply Hreg; now left|].
      unfold try_except. rewrite (try_registered _ _ _ _ _ _ Hp).
      destruct (provider_generate p prompt kw (world st)) as [[e|t] w']
        eqn:Hrun; simpl.
      * intros H. destruct (IH Hreg' _ _ _ H)
          as (k' & p' & log & w & Hin & Hrest).
        exists k', p', log, w. split; [now right|exact Hrest].
      * intros [= <- <-]. exists k, p, (calls st), (world st).
        simpl. repeat split; auto.
Qed.


(** X2. When the adapter chosen first answers, the call returns its text
    having invoked that adapter once and no other. *)
Theorem first_success_single_call self prompt provider kw st name p text w' :
  resolve_provider self provider = inr name ->
  Dict.get name (providers self) = Some p ->
  provider_generate p prompt kw (world st) = (inr text, w') ->
  generate self prompt provider kw st
  = (inr text, mkSt w' (calls st ++ [name])).
Proof.
  intros Hres Hp Hrun. unfold generate. rewrite Hres.
  now apply attempt_success with (p := p).
Qed.

(** The three ways a call can fail. *)
Lemma generate_failure_cases self prompt provider kw st e st' :
  generate self prompt provider kw st = (inl e, st') ->
  (e = ValueError "No AI providers available"
   /\ providers self = [] /\ st' = st)
  \/ (e = Exception "All AI providers failed" /\ providers self <> [])
  \/ derives_Exception e = false.
Proof.
  unfold generate.
  destruct (resolve_provider self provider) as [err|name] eqn:Hres.
  - unfold resolve_provider in Hres.
    destruct (Dict.contains _ (providers self)); [discriminate|].
    destruct (providers self) as [|[k v] d]; [|discriminate].
    injection Hres as <-. intros [= <- <-]. left. auto.
  - intros Hrun.
    pose proof (resolved_is_registered _ _ _ Hres) as Hc.
    pose proof (attempt_outcome self name prompt kw st Hc) as Hout.
    rewrite Hrun in Hout. simpl in Hout. right.
    destruct Hout as [->|Hsig]; [left|now right].
    split; [reflexivity|]. intros Hempty. rewrite Hempty in Hc.
    discriminate.
Qed.

(** X3. The ways a call can fail: with the no-providers error, exactly
    when the registry is empty and then without touching the state; with
    the generic all-failed error; or with a signal outside [Exception].
    No error of a backend that [except Exception] handles gets out. *)
Theorem generate_failure_kinds self prompt provider kw st e st' :
  generate self prompt provider kw st = (inl e, st') ->
  (e = ValueError "No AI providers available"
   /\ providers self = [] /\ st' = st)
  \/ (e = Exception "All AI providers failed" /\ providers self <> [])
  \/ derives_Exception e = false.
Proof. apply generate_failure_cases. Qed.

(** X4. A text that [generate] returns is the answer of the adapter it
    invoked last, a registered one, and the world is left as that
    adapter left it. *)
Theorem returned_text_provenance self prompt provider kw st text st' :
  generate self prompt provider kw st = (inr text, st') ->
  exists k p log w,
    Dict.get k (providers self) = Some p
    /\ calls st' = log ++ [k]
    /\ provider_generate p prompt kw w = (inr text, world st').
Proof.
  unfold generate.
  destruct (resolve_provider self provider) as [err|name] eqn:Hres;
    [discriminate|].
  pose proof (resolved_is_registered _ _ _ Hres) as Hc.
  destruct (get_of_contains _ _ Hc) as [p Hp].
  destruct (provider_generate p prompt kw (world st)) as [[e|t] w'] eqn:Hrun.
  - destruct (derives_Exception e) eqn:He.
    + rewrite (attempt_failure _ _ _ _ _ _ _ _ Hp Hrun He). intros H.
      destruct (fallback_provenance self _ name prompt kw
                  (fun k => contains_of_key k _) _ _ _ H)
        as (k & p' & log & w & _ & _ & Hget & Hcalls & Hans).
      now exists k, p', log, w.
    + rewrite (attempt_signal _ _ _ _ _ _ _ _ Hp Hrun He). discriminate.
  - rewrite (attempt_success _ _ _ _ _ _ _ _ Hp Hrun).
    intros [= <- <-]. exists name, p, (calls st), (world st). auto.
Qed.

(** X5. One call invokes no adapter twice and at most as many adapters
    as are registered: the fallback is bounded by the registry. *)
Theorem generate_call_bound self prompt provider kw st :
  Dict.wf (providers self) ->
  exists log,
    calls (snd (generate self prompt provider kw st)) = calls st ++ log
    /\ NoDup log
    /\ length log <= length (providers self).
Proof.
  intros Hwf. unfold generate.
  destruct (resolve_provider self provider) as [err|name] eqn:Hres.
  - exists []. simpl. rewrite app_nil_r. repeat split; [constructor|lia].
  - pose proof (resolved_is_registered _ _ _ Hres) as Hc.
    pose proof (others_length name _ Hwf (key_of_contains _ _ Hc)) as Hlen.
    unfold Dict.keys in Hlen at 2. rewrite length_map in Hlen.
    destruct (get_of_contains _ _ Hc) as [p Hp].
    assert (Hone : NoDup [name] /\ length [name] <= length (providers self)).
    { split; [repeat constructor; intros []|simpl; lia]. }
    destruct (provider_generate p prompt kw (world st)) as [[e|t] w']
      eqn:Hrun.
    + destruct (derives_Exception e) eqn:He.
      * rewrite (attempt_failure _ _ _ _ _ _ _ _ Hp Hrun He).
        destruct (fallback_trace self (Dict.keys (providers self)) name
                    prompt kw (fun k => contains_of_key k _)
                    (mkSt w' (calls st ++ [name])))
          as (tried & rest & Heq & Hcalls & _).
        exists (name :: tried). split; [|split].
        -- rewrite Hcalls. simpl. now rewrite <- app_assoc.
        -- pose proof (others_NoDup name _ Hwf) as Hnd. rewrite Heq in Hnd.
           change (name :: tried ++ rest) with ((name :: tried) ++ rest)
             in Hnd.
           now apply NoDup_prefix in Hnd.
        -- rewrite Heq, length_app in Hlen. simpl. lia.
      * rewrite (attempt_signal _ _ _ _ _ _ _ _ Hp Hrun He).
        exists [name]. split; [reflexivity|exact Hone].
    + rewrite (attempt_success _ _ _ _ _ _ _ _ Hp Hrun).
      exists [name]. split; [reflexivity|exact Hone].
Qed.

(** X6. A signal outside [Exception] raised by the adapter chosen first
    is passed on as it is, and no other adapter is tried. *)
Theorem first_signal_propagates self prompt provider kw st name p e w' :
  resolve_provider self provider = inr name ->
  Dict.get name (providers self) = Some p ->
  provider_generate p prompt kw (world st) = (inl e, w') ->
  derives_Exception e = false ->
  generate self prompt provider kw st
  = (inl e, mkSt w' (calls st ++ [name])).
Proof.
  intros Hres Hp Hrun He. unfold generate. rewrite Hres.
  now apply attempt_signal with (p := p).
Qed.


End RouterMore.


(** * Further properties of the derived operations *)

Section DerivedMore.

Context {World : Type}.

Implicit Types (self : AIService World) (st : St World)
  (text raw pre mid post : string).

Lemma get_in_range c s : forall i,
  String.get i s = Some c -> (i < String.length s)%nat.
Proof.
  induction s as [|c' s IH]; intros i; simpl.
  - now destruct i.
  - destruct i as [|i]; [lia|]. intros H. apply IH in H. lia.
Qed.

Lemma substring_head c s : forall i n,
  String.get i s = Some c ->
  exists t, String.substring i (S n) s = String c t.
Proof.
  induction s as [|c' s IH]; intros i n; simpl.
  - now destruct i.
  - destruct i as [|i].
    + intros [= ->]. eauto.
    + apply IH.
Qed.

(** A slice that starts at an occurrence and is not empty starts with the
    character found there. *)
Lemma slice_head c s i j :
  String.get i s = Some c ->
  (Z.of_nat i < j)%Z ->
  exists t, Str.slice s (Z.of_nat i) j = String c t.
Proof.
  intros Hget Hij. pose proof (get_in_range _ _ _ Hget) as Hlt.
  unfold Str.slice, Str.clamp, Str.len.
  destruct (Z.ltb_spec (Z.of_nat i) 0); [lia|].
  destruct (Z.ltb_spec j 0); [lia|].
  rewrite Z.min_l by lia. rewrite Nat2Z.id.
  destruct (Z.to_nat (Z.min j (Z.of_nat (String.length s)) - Z.of_nat i))
    as [|n] eqn:Hn; [lia|].
  now apply substring_head.
Qed.

(** A text that opens with a brace decodes to a dictionary or not at
    all. *)
Lemma loads_brace_dict t v :
  Json.loads (String "{" t) = inr v -> exists items, v = PyDict items.
Proof.
  unfold Json.loads, Json.decode.
  change (Json.skip_ws (String "{" t)) with (String "{" t).
  destruct (Json.depth (String "{" t)) as [|f] eqn:Hf;
    [unfold Json.depth in Hf; simpl in Hf; lia|].
  cbn [Json.scan_once].
  change (Ascii.eqb "{" Str.dquote) with false.
  change (Ascii.eqb "{" "{") with true. cbv iota.
  destruct (Json.skip_ws t) as [|d s1]; [discriminate|].
  destruct (Ascii.eqb d "}").
  - destruct (Json.skip_ws s1); [|discriminate].
    intros [= <-]. eauto.
  - destruct (Ascii.eqb d Str.dquote); [|discriminate].
    destruct (Json.members f s1 []) as [pairs rest| |]; try discriminate.
    destruct (Json.skip_ws rest); [|discriminate].
    intros [= <-]. eauto.
Qed.

(** What the parsing step can return: the fallback record it was given,
    or a dictionary. *)
Lemma extract_json_value raw (d v : pyval) st st' :
  extract_json raw d st = (inr v, st') ->
  st' = st /\ (v = d \/ exists items, v = PyDict items).
Proof.
  unfold extract_json, Str.find, Str.rfind.
  destruct (find_from_char "{" raw 0) as [H|(i & H & Hi)]; rewrite H.
  - simpl. intros [= <- <-]. auto.
  - set (je := (Str.rfind_from "}" raw 0 + 1)%Z).
    destruct (negb (0 + Z.of_nat i =? -1)%Z && (je >? 0 + Z.of_nat i)%Z)
      eqn:Hcond.
    + apply andb_true_iff in Hcond as [_ Hgt].
      rewrite Z.gtb_ltb in Hgt. apply Z.ltb_lt in Hgt.
      replace (0 + Z.of_nat i)%Z with (Z.of_nat i) in * by lia.
      destruct (slice_head _ _ _ je Hi Hgt) as [t ->].
      destruct (Json.loads (String "{" t)) as [e|v'] eqn:Hl; simpl;
        [discriminate|].
      intros [= <- <-]. split; [reflexivity|right].
      exact (loads_brace_dict _ _ Hl).
    + intros [= <- <-]. auto.
Qed.

(** The shape both operations have, by cases on the router's answer. *)
Lemma parsed_reply_cases self prompt (d err : pyval) st :
  let op :=
    try_except
      (bind (generate self prompt None low_temperature)
         (fun r => extract_json r d))
      derives_Exception (fun _ => ret err) in
  match generate self prompt None low_temperature st with
  | (inl e, st') =>
      op st = if derives_Exception e then (inr err, st') else (inl e, st')
  | (inr raw, st') =>
      op st = (match fst (extract_json raw d st') with
               | inr v => inr v
               | inl _ => inr err
               end, st')
  end.
Proof.
  cbv zeta. unfold try_except, bind.
  destruct (generate self prompt None low_temperature st) as [[e|raw] st'].
  - reflexivity.
  - destruct (extract_json raw d st') as [[e|v] st''] eqn:Hx; simpl.
    + destruct (extract_json_raises _ _ _ _ _ Hx) as [-> ->]. reflexivity.
    + destruct (extract_json_value _ _ _ _ _ Hx) as [-> _]. reflexivity.
Qed.

(** X8. When the router's response has no opening brace followed by a
    closing brace, [extract_intent] returns the record unknown / 0.0 /
    no entities / clarify, and raises nothing. *)
Theorem no_braces_gives_clarify self text st raw st' :
  generate self (intent_prompt text) None low_temperature st
  = (inr raw, st') ->
  no_brace_pair raw = true ->
  extract_intent self text st = (inr intent_clarify, st').
Proof.
  intros Hgen Hnp. unfold extract_intent, try_except, bind.
  rewrite Hgen. now rewrite extract_json_no_pair.
Qed.

(** X9. Neither operation ever fails with an error that
    [except Exception] handles: whatever the registry and the backends
    do, the caller gets a record, or a signal outside [Exception]. *)
Theorem derived_ops_never_raise self text st :
  (forall e st', analyze_sentiment self text st = (inl e, st') ->
                 derives_Exception e = false)
  /\ (forall e st', extract_intent self text st = (inl e, st') ->
                    derives_Exception e = false).
Proof.
  split; intros e st'.
  - pose proof (parsed_reply_cases self (sentiment_prompt text)
                  sentiment_unclear sentiment_error st) as H.
    cbv zeta in H. unfold analyze_sentiment.
    destruct (generate self _ None low_temperature st) as [[e0|raw] st0].
    + rewrite H. destruct (derives_Exception e0) eqn:He; [discriminate|].
      now intros [= <- <-].
    + rewrite H. now destruct (fst (extract_json raw _ st0)).
  - pose proof (parsed_reply_cases self (intent_prompt text)
                  intent_clarify intent_error st) as H.
    cbv zeta in H. unfold extract_intent.
    destruct (generate self _ None low_temperature st) as [[e0|raw] st0].
    + rewrite H. destruct (derives_Exception e0) eqn:He; [discriminate|].
      now intros [= <- <-].
    + rewrite H. now destruct (fst (extract_json raw _ st0)).
Qed.

(** X10. Whatever either operation returns is a dictionary, so a caller
    may index it and assign to its keys. *)
Theorem derived_ops_return_dict self text st :
  (forall v st', analyze_sentiment self text st = (inr v, st') ->
                 exists items, v = PyDict items)
  /\ (forall v st', extract_intent self text st = (inr v, st') ->
                    exists items, v = PyDict items).
Proof.
  assert (Hcase : forall prompt d err,
            (exists items, d = PyDict items) ->
            (exists items, err = PyDict items) ->
            forall v st',
              try_except
                (bind (generate self prompt None low_temperature)
                   (fun r => extract_json r d))
                derives_Exception (fun _ => ret err) st = (inr v, st') ->
              exists items, v = PyDict items).
  { intros prompt d err Hd Herr v st'.
    pose proof (parsed_reply_cases self prompt d err st) as H.
    cbv zeta in H.
    destruct (generate self prompt None low_temperature st)
      as [[e0|raw] st0].
    - rewrite H. destruct (derives_Exception e0); [|discriminate].
      now intros [= <- <-].
    - rewrite H.
      destruct (extract_json raw d st0) as [[e1|v1] st1] eqn:Hx; simpl.
      + now intros [= <- <-].
      + intros [= <- <-].
        destruct (extract_json_value _ _ _ _ _ Hx) as [_ [->|Hv]];
          assumption. }
  split; intros v st'.
  - apply Hcase; unfold sentiment_unclear, sentiment_error; eauto.
  - apply Hcase; unfold intent_clarify, intent_error; eauto.
Qed.

(** X11. Either operation costs exactly one router call: it leaves the
    world and the invocation log as that call left them. *)
Theorem derived_ops_one_round_trip self text st :
  snd (analyze_sentiment self text st)
  = snd (generate self (sentiment_prompt text) None low_temperature st)
  /\ snd (extract_intent self text st)
     = snd (generate self (intent_prompt text) None low_temperature st).
Proof.
  split.
  - pose proof (parsed_reply_cases self (sentiment_prompt text)
                  sentiment_unclear sentiment_error st) as H.
    cbv zeta in H. unfold analyze_sentiment.
    destruct (generate self _ None low_temperature st) as [[e0|raw] st0];
      rewrite H; [now destruct (derives_Exception e0)|reflexivity].
  - pose proof (parsed_reply_cases self (intent_prompt text)
                  intent_clarify intent_error st) as H.
    cbv zeta in H. unfold extract_intent.
    destruct (generate self _ None low_temperature st) as [[e0|raw] st0];
      rewrite H; [now destruct (derives_Exception e0)|reflexivity].
Qed.

(** X12. A reply made of remarks, one brace-delimited part and more
    remarks, with no other opening brace before that part and no other
    closing brace after it, is answered by [extract_intent] with what
    [json.loads] makes of that part, and with the error record when it
    is not JSON. *)
Theorem intent_span_decoded self text st pre mid post st' :
  Str.lacks "{" pre = true ->
  Str.lacks "}" post = true ->
  generate self (intent_prompt text) None low_temperature st
  = (inr (pre ++ String "{" (mid ++ String "}" EmptyString) ++ post), st') ->
  extract_intent self text st
  = (match Json.loads (String "{" (mid ++ String "}" EmptyString)) with
     | inr v => inr v
     | inl _ => inr intent_error
     end, st').
Proof.
  intros Hpre Hpost Hgen. unfold extract_intent, try_except, bind.
  rewrite Hgen, (extract_json_span _ _ _ _ _ Hpre Hpost).
  destruct (Json.loads _) as [e|v] eqn:Hl; simpl; [|reflexivity].
  now rewrite (loads_raises _ _ Hl).
Qed.

End DerivedMore.


(** * Properties of the routes *)

Section RoutesMore.

Context {World : Type}.

Implicit Types (ai : AIService World) (st : St World).

(** What either derived operation ends in. *)
Lemma parsed_reply_outcome ai prompt (d err : pyval) st :
  (exists items, d = PyDict items) ->
  (exists items, err = PyDict items) ->
  match fst (try_except
               (bind (generate ai prompt None low_temperature)
                  (fun r => extract_json r d))
               derives_Exception (fun _ => ret err) st) with
  | inr v => exists items, v = PyDict items
  | inl e => derives_Exception e = false
  end.
Proof.
  intros Hd Herr.
  pose proof (parsed_reply_cases ai prompt d err st) as H. cbv zeta in H.
  destruct (generate ai prompt None low_temperature st) as [[e0|raw] st0];
    rewrite H.
  - destruct (derives_Exception e0) eqn:He; simpl; assumption.
  - simpl. destruct (extract_json raw d st0) as [[e1|v1] st1] eqn:Hx; simpl.
    + assumption.
    + destruct (extract_json_value _ _ _ _ _ Hx) as [_ [->|Hv]]; assumption.
Qed.

Lemma analyze_sentiment_outcome ai text st :
  match fst (analyze_sentiment ai text st) with
  | inr v => exists items, v = PyDict items
  | inl e => derives_Exception e = false
  end.
Proof.
  apply parsed_reply_outcome;
    unfold sentiment_unclear, sentiment_error; eauto.
Qed.

Lemma extract_intent_outcome ai text st :
  match fst (extract_intent ai text st) with
  | inr v => exists items, v = PyDict items
  | inl e => derives_Exception e = false
  end.
Proof.
  apply parsed_reply_outcome; unfold intent_clarify, intent_error; eauto.
Qed.



(** X15. The health endpoint always answers with a report, whatever the
    probe call does (a signal outside [Exception] included). Its status
    tells only whether any provider is registered; whether the probe
    succeeded shows in [default_provider_status] alone. The probe is one
    router call. *)
Theorem health_check_report ai st :
  let probe :=
    generate ai Routes.test_prompt None [("max_tokens", PyInt 10)] st in
  exists report,
    Routes.health_check ai st = (inr report, snd probe)
    /\ field report "status"
       = Some (PyStr match providers ai with
                     | [] => "no_providers"
                     | _ :: _ => "healthy"
                     end)
    /\ field report "default_provider_status"
       = Some (PyStr match fst probe with
                     | inr _ => "healthy"
                     | inl _ => "degraded"
                     end)
    /\ field report "available_providers"
       = Some (PyList (map PyStr (get_available_providers ai)))
    /\ field report "total_providers"
       = Some (PyInt (Z.of_nat (List.length (providers ai)))).
Proof.
  cbv zeta. unfold Routes.health_check, try_except, bind,
    get_available_providers, Dict.keys.
  rewrite length_map.
  destruct (generate ai Routes.test_prompt None [("max_tokens", PyInt 10)] st)
    as [[e|text] st']; simpl;
    eexists; (split; [reflexivity|]);
    destruct (providers ai); simpl; repeat split.
Qed.

End RoutesMore.


(** * Further properties of the construction *)

Section StartupMore.

Context {World : Type}.

Variable transport :
  Endpoint -> string -> kwargs -> World -> (exn + string) * World.
Variable sdk_client : Endpoint -> option exn.

Local Open Scope list_scope.

Ltac by_credentials env :=
  unfold _initialize_providers, register_if_configured, configured,
    credentialed, OpenAIProvider, ClaudeProvider, GeminiProvider,
    GroqProvider, OllamaProvider, with_client;
  cbn [filter map fst snd];
  destruct (getenv_truthy env "OPENAI_API_KEY");
  destruct (getenv_truthy env "ANTHROPIC_API_KEY");
  destruct (getenv_truthy env "GOOGLE_API_KEY");
  destruct (getenv_truthy env "GROQ_API_KEY");
  repeat match goal with
         | |- context [sdk_client ?e] => destruct (sdk_client e)
         end.

(** The keys of the registry that initialisation builds. *)
Lemma initialize_keys env ps :
  _initialize_providers transport sdk_client env = inr ps ->
  Dict.keys ps = configured env ++ ["ollama"].
Proof.
  by_credentials env; intros [= <-] || discriminate; reflexivity.
Qed.

Lemma configured_shape env :
  NoDup (configured env ++ ["ollama"])
  /\ length (configured env) <= 4.
Proof.
  unfold configured, credentialed. cbn [filter map fst snd].
  destruct (getenv_truthy env "OPENAI_API_KEY");
    destruct (getenv_truthy env "ANTHROPIC_API_KEY");
    destruct (getenv_truthy env "GOOGLE_API_KEY");
    destruct (getenv_truthy env "GROQ_API_KEY");
    (split; [|simpl; lia]);
    repeat constructor; simpl; intuition discriminate.
Qed.

(** X16. The providers a constructed service lists are exactly the
    backends whose credential is set and not empty, in the fixed order
    openai, claude, gemini, groq, followed always by ollama. *)
Theorem available_providers_from_env env (svc : AIService World) :
  AIService_init transport sdk_client env = inr svc ->
  get_available_providers svc = configured env ++ ["ollama"].
Proof.
  unfold AIService_init.
  destruct (_initialize_providers transport sdk_client env) as [e|ps]
    eqn:Hinit; [discriminate|].
  intros [= <-]. exact (initialize_keys _ _ Hinit).
Qed.

(** X17. The registry of a constructed service is a proper dictionary of
    one to five entries, and the provider report counts them. *)
Theorem registry_well_formed env (svc : AIService World) :
  AIService_init transport sdk_client env = inr svc ->
  Dict.wf (providers svc)
  /\ 1 <= length (providers svc) <= 5
  /\ field (get_provider_info svc) "total_providers"
     = Some (PyInt (Z.of_nat (length (configured env) + 1))).
Proof.
  unfold AIService_init.
  destruct (_initialize_providers transport sdk_client env) as [e|ps]
    eqn:Hinit; [discriminate|].
  intros [= <-]. simpl. pose proof (initialize_keys _ _ Hinit) as Hk.
  destruct (configured_shape env) as [Hnd Hle].
  assert (Hlen : length ps = length (configured env) + 1).
  { rewrite <- (length_map fst ps). fold (Dict.keys ps). rewrite Hk.
    rewrite length_app. reflexivity. }
  unfold Dict.wf. rewrite Hk, Hlen. repeat split; [assumption|lia|lia].
Qed.

(** X18. Construction fails only through the client object of an
    SDK-backed adapter: when those constructors raise nothing, the
    service is built, whatever the environment holds. *)
Theorem construction_succeeds env :
  (forall e, sdk_client e = None) ->
  exists svc, AIService_init transport sdk_client env = inr svc.
Proof.
  intros Hok. unfold AIService_init.
  destruct (_initialize_providers transport sdk_client env) as [e|ps]
    eqn:Hinit; [|eauto].
  exfalso. revert Hinit.
  unfold _initialize_providers, register_if_configured, OpenAIProvider,
    ClaudeProvider, GeminiProvider, GroqProvider, OllamaProvider, with_client.
  destruct (getenv_truthy env "OPENAI_API_KEY");
    destruct (getenv_truthy env "ANTHROPIC_API_KEY");
    destruct (getenv_truthy env "GOOGLE_API_KEY");
    destruct (getenv_truthy env "GROQ_API_KEY");
    rewrite ?Hok; discriminate.
Qed.

(** X19. The OpenAI adapter is built outside any handler: when a
    credential is set and building its client raises, the construction
    of the whole service raises that error, and no service exists. *)
Theorem openai_failure_aborts env key err :
  getenv_truthy env "OPENAI_API_KEY" = Some key ->
  sdk_client (OpenAI key (getenv env "OPENAI_MODEL" "gpt-4-turbo"))
  = Some err ->
  AIService_init transport sdk_client env = inl err.
Proof.
  intros Hkey Herr.
  unfold AIService_init, _initialize_providers, register_if_configured,
    OpenAIProvider, with_client.
  now rewrite Hkey, Herr.
Qed.

(** X20. On a machine with no credential set the registry is the Ollama
    entry alone; every call, whatever provider it names, is one request
    to Ollama, whose text is returned and whose failure becomes the
    generic error (a signal outside [Exception] is passed on). *)
Theorem only_ollama env (svc : AIService World) prompt provider kw st :
  AIService_init transport sdk_client env = inr svc ->
  configured env = [] ->
  let endpoint :=
    Ollama (getenv env "OLLAMA_BASE_URL" "http://localhost:11434")
           (getenv env "OLLAMA_MODEL" "llama3:8b") in
  generate svc prompt provider kw st
  = (match fst (transport endpoint prompt kw (world st)) with
     | inr text => inr text
     | inl e =>
         inl (if derives_Exception e
              then Exception "All AI providers failed" else e)
     end,
     mkSt (snd (transport endpoint prompt kw (world st)))
          (calls st ++ ["ollama"])).
Proof.
  cbv zeta. unfold AIService_init. intros Hinit.
  assert (Hps : providers svc
                = [("ollama",
                    mkProvider
                      (transport
                         (Ollama
                            (getenv env "OLLAMA_BASE_URL"
                               "http://localhost:11434")
                            (getenv env "OLLAMA_MODEL" "llama3:8b"))))]
                  \/ configured env <> []).
  { revert Hinit. by_credentials env;
      intros [= <-] || discriminate;
      (now left) || (right; discriminate). }
  intros Hnone. destruct Hps as [Hps|]; [|contradiction].
  set (p := mkProvider _) in Hps.
  assert (Hres : resolve_provider svc provider = inr "ollama").
  { unfold resolve_provider. rewrite Hps. simpl.
    destruct (String.eqb_spec (str_or provider (default_provider svc))
                "ollama") as [->|_]; reflexivity. }
  assert (Hget : Dict.get "ollama" (providers svc) = Some p)
    by (rewrite Hps; reflexivity).
  unfold generate. rewrite Hres.
  destruct (provider_generate p prompt kw (world st)) as [[e|text] w']
    eqn:Hrun; unfold p in Hrun; simpl in Hrun; rewrite Hrun; simpl.
  - destruct (derives_Exception e) eqn:He.
    + rewrite (attempt_failure _ _ _ _ _ _ _ _ Hget Hrun He).
      rewrite Hps. reflexivity.
    + now rewrite (attempt_signal _ _ _ _ _ _ _ _ Hget Hrun He).
  - now rewrite (attempt_success _ _ _ _ _ _ _ _ Hget Hrun).
Qed.

(** X21. The health endpoint of a constructed service always reports
    the status healthy, even when every backend is out of reach. *)
Theorem constructed_service_reports_healthy env (svc : AIService World) st :
  AIService_init transport sdk_client env = inr svc ->
  exists report st',
    Routes.health_check svc st = (inr report, st')
    /\ field report "status" = Some (PyStr "healthy").
Proof.
  intros Hinit.
  assert (Hne : providers svc <> []).
  { unfold AIService_init in Hinit.
    destruct (_initialize_providers transport sdk_client env) as [e|ps]
      eqn:Hi; [discriminate|].
    injection Hinit as <-. simpl.
    pose proof (initialize_registers_ollama _ _ _ _ Hi) as Hc.
    intros ->. discriminate. }
  unfold Routes.health_check, try_except, bind, get_available_providers.
  destruct (generate svc Routes.test_prompt None [("max_tokens", PyInt 10)] st)
    as [[e|text] st']; simpl;
    eexists; eexists; (split; [reflexivity|]);
    destruct (providers svc); [contradiction|reflexivity
                              |contradiction|reflexivity].
Qed.

End StartupMore.


(** * Properties of the CRM callers *)

Section CRMMore.

Context {World Customer : Type}.

Variable customer_query : Z -> M World (option Customer).
Variable recent_incoming : Z -> Z -> M World (list CRM.Message).
Variable next_actions_prompt : Customer -> string.

Implicit Types (self : CRM.CRMService World) (st : St World).

Lemma get_set_same {V} (k : string) (v : V) (d : Dict.t V) :
  Dict.get k (Dict.set k v d) = Some v.
Proof.
  induction d as [|[k' v'] d IH]; simpl.
  - now rewrite String.eqb_refl.
  - destruct (String.eqb k k') eqn:Hk; simpl;
      now rewrite ?String.eqb_refl, ?Hk.
Qed.

Lemma get_set_other {V} (k k' : string) (v : V) (d : Dict.t V) :
  k <> k' -> Dict.get k (Dict.set k' v d) = Dict.get k d.
Proof.
  intros Hne. induction d as [|[k0 v0] d IH]; simpl.
  - now destruct (String.eqb_spec k k').
  - destruct (String.eqb_spec k' k0) as [->|Hne0]; simpl.
    + now destruct (String.eqb_spec k k0).
    + destruct (String.eqb k k0); [reflexivity|exact IH].
Qed.

Lemma find_from_lacks c s :
  Str.lacks c s = true ->
  forall k, Str.find_from (String c EmptyString) s k = (-1)%Z.
Proof.
  induction s as [|c' s IH]; intros Hl k.
  - reflexivity.
  - simpl in Hl. destruct (Ascii.eqb_spec c' c) as [->|Hne]; [discriminate|].
    unfold Str.find_from; fold Str.find_from. rewrite prefix_char.
    replace (Ascii.eqb c c') with false
      by (symmetry; apply Ascii.eqb_neq; congruence).
    now apply IH.
Qed.

(** How [analyze_customer_sentiment] goes once the query has answered
    with at least one message. *)
Lemma customer_sentiment_run self customer_id recent_days st msg msgs st1 :
  recent_incoming customer_id recent_days st = (inr (msg :: msgs), st1) ->
  let asked :=
    analyze_sentiment (CRM.ai_service self)
      (Str.slice (String.concat nl (CRM.contents (msg :: msgs))) 0 2000)
      st1 in
  CRM.analyze_customer_sentiment recent_incoming self customer_id
    recent_days st
  = (match fst asked with
     | inr (PyDict items) =>
         inr (PyDict
                (Dict.set "period_days" (PyInt recent_days)
                   (Dict.set "message_count"
                      (PyInt (Z.of_nat (List.length (msg :: msgs))))
                      items)))
     | other => other
     end, snd asked).
Proof.
  intros Hq. cbv zeta.
  pose proof (analyze_sentiment_outcome (CRM.ai_service self)
                (Str.slice (String.concat nl (CRM.contents (msg :: msgs)))
                   0 2000) st1) as Hout.
  unfold CRM.analyze_customer_sentiment, try_except, bind.
  rewrite Hq.
  destruct (analyze_sentiment _ _ st1) as [[e|v] st2]; simpl in *.
  - now rewrite Hout.
  - destruct Hout as [items ->]. reflexivity.
Qed.



(** X24. Without a customer there is nothing to suggest and nothing is
    asked of any model: when the lookup finds no row, or fails in a way
    [except Exception] handles, the answer is the empty list and the
    state is as the lookup left it. *)
Theorem no_customer_no_suggestions self customer_id st st1 :
  (customer_query customer_id st = (inr None, st1)
   \/ exists e, customer_query customer_id st = (inl e, st1)
                /\ derives_Exception e = true) ->
  CRM.suggest_next_actions customer_query next_actions_prompt self
    customer_id st = (inr (PyList []), st1).
Proof.
  intros [Hq|(e & Hq & He)];
    unfold CRM.suggest_next_actions, CRM.get_customer, try_except, bind;
    rewrite Hq; [reflexivity|now rewrite He].
Qed.


End CRMMore.


(** * The further properties on concrete services *)

Section MoreRuns.

Import Doubles.
Local Open Scope list_scope.


Lemma first_success_single_call_witness :
  generate a_fails_b_answers "Say OK" (Some "B") [] idle
  = (inr "hello", mkSt 1 (calls idle ++ ["B"])).
Proof.
  apply (first_success_single_call a_fails_b_answers "Say OK" (Some "B") []
           idle "B" (answering "hello") "hello" 1); reflexivity.
Defined.

Lemma generate_failure_kinds_witness :
  (Exception "All AI providers failed"
   = ValueError "No AI providers available"
   /\ providers two_down = [] /\ mkSt 2 ["A"; "B"] = idle)
  \/ (Exception "All AI providers failed"
      = Exception "All AI providers failed"
      /\ providers two_down <> [])
  \/ derives_Exception (Exception "All AI providers failed") = false.
Proof.
  apply (generate_failure_kinds two_down "Say OK" None [] idle
           (Exception "All AI providers failed") (mkSt 2 ["A"; "B"])).
  reflexivity.
Defined.

Lemma returned_text_provenance_witness :
  exists k p log w,
    Dict.get k (providers a_fails_b_answers) = Some p
    /\ calls (mkSt 2 ["A"; "B"]) = log ++ [k]
    /\ provider_generate p "Say OK" [] w
       = (inr "hello", world (mkSt 2 ["A"; "B"])).
Proof.
  apply (returned_text_provenance a_fails_b_answers "Say OK" None [] idle
           "hello" (mkSt 2 ["A"; "B"])).
  reflexivity.
Defined.

Lemma generate_call_bound_witness :
  exists log,
    calls (snd (generate three_down "Say OK" None [] idle))
    = calls idle ++ log
    /\ NoDup log
    /\ length log <= length (providers three_down).
Proof.
  apply (generate_call_bound three_down "Say OK" None [] idle).
  exact three_down_wf.
Defined.

Lemma first_signal_propagates_witness :
  generate interrupted "Say OK" None [] idle
  = (inl cancelled, mkSt 1 (calls idle ++ ["A"])).
Proof.
  apply (first_signal_propagates interrupted "Say OK" None [] idle "A"
           (failing cancelled) cancelled 1); reflexivity.
Defined.

Lemma failing_never_answers e : never_answers (failing e).
Proof. intros prompt kw w. exists e, (S w). reflexivity. Defined.


Lemma no_braces_gives_clarify_witness :
  extract_intent prose_only "I love it" idle
  = (inr intent_clarify, mkSt 1 ["ollama"]).
Proof.
  apply (no_braces_gives_clarify prose_only "I love it" idle
           "The text sounds rather positive." (mkSt 1 ["ollama"]));
    reflexivity.
Defined.

Lemma derived_ops_never_raise_witness :
  derives_Exception cancelled = false.
Proof.
  apply (proj1 (derived_ops_never_raise interrupted "I love it" idle)
           cancelled (mkSt 1 ["A"])).
  reflexivity.
Defined.

Lemma derived_ops_return_dict_witness :
  exists items, sentiment_unclear = PyDict items.
Proof.
  apply (proj1 (derived_ops_return_dict prose_only "I love it" idle)
           sentiment_unclear (mkSt 1 ["ollama"])).
  reflexivity.
Defined.

Lemma intent_span_decoded_witness :
  extract_intent wrapping "I love it" idle
  = (match Json.loads
             (String "{" (upbeat_inner ++ String "}" EmptyString)) with
     | inr v => inr v
     | inl _ => inr intent_error
     end, mkSt 1 ["ollama"]).
Proof.
  apply (intent_span_decoded wrapping "I love it" idle
           "Here is the analysis: " upbeat_inner " Anything else?"
           (mkSt 1 ["ollama"])); reflexivity.
Defined.


Lemma available_providers_from_env_witness :
  get_available_providers bare_service = configured bare_env ++ ["ollama"].
Proof.
  apply (available_providers_from_env unreachable sdk_ok bare_env
           bare_service).
  reflexivity.
Defined.

Lemma registry_well_formed_witness :
  Dict.wf (providers bare_service)
  /\ 1 <= length (providers bare_service) <= 5
  /\ field (get_provider_info bare_service) "total_providers"
     = Some (PyInt (Z.of_nat (length (configured bare_env) + 1))).
Proof.
  apply (registry_well_formed unreachable sdk_ok bare_env bare_service).
  reflexivity.
Defined.

Lemma construction_succeeds_witness :
  exists svc, AIService_init unreachable sdk_ok keyed_env = inr svc.
Proof.
  apply (construction_succeeds unreachable sdk_ok keyed_env).
  reflexivity.
Defined.

Lemma openai_failure_aborts_witness :
  AIService_init unreachable sdk_broken keyed_env = inl bad_key.
Proof.
  apply (openai_failure_aborts unreachable sdk_broken keyed_env "sk-test"
           bad_key); reflexivity.
Defined.

Lemma only_ollama_witness :
  generate bare_service "Say OK" (Some "openai") [] idle
  = (match fst (unreachable
                  (Ollama (getenv bare_env "OLLAMA_BASE_URL"
                             "http://localhost:11434")
                          (getenv bare_env "OLLAMA_MODEL" "llama3:8b"))
                  "Say OK" [] (world idle)) with
     | inr text => inr text
     | inl e =>
         inl (if derives_Exception e
              then Exception "All AI providers failed" else e)
     end,
     mkSt (snd (unreachable
                  (Ollama (getenv bare_env "OLLAMA_BASE_URL"
                             "http://localhost:11434")
                          (getenv bare_env "OLLAMA_MODEL" "llama3:8b"))
                  "Say OK" [] (world idle)))
          (calls idle ++ ["ollama"])).
Proof.
  apply (only_ollama unreachable sdk_ok bare_env bare_service "Say OK"
           (Some "openai") [] idle); reflexivity.
Defined.

Lemma constructed_service_reports_healthy_witness :
  exists report st',
    Routes.health_check bare_service idle = (inr report, st')
    /\ field report "status" = Some (PyStr "healthy").
Proof.
  apply (constructed_service_reports_healthy unreachable sdk_ok bare_env
           bare_service idle).
  reflexivity.
Defined.



Lemma no_customer_no_suggestions_witness :
  CRM.suggest_next_actions nobody ask_about (CRM.mkCRM a_fails_b_answers) 7
    idle = (inr (PyList []), idle).
Proof.
  apply (no_customer_no_suggestions nobody ask_about
           (CRM.mkCRM a_fails_b_answers) 7 idle idle).
  left. reflexivity.
Defined.


End MoreRuns.
